(** * Quick Move plugin: filename transforms, conflict resolution and
      command error handling

    A shallow embedding of the plugin class [QuickMovePlugin]: the string
    helpers it takes from the JavaScript runtime, the cepoch prefix
    transform [processFilenameWithPrefix], the conflict-resolving loop of
    [duplicateFileToFolder], and the commands [moveCurrentFileToFolder],
    [duplicateFileToFolder] and [moveToParentFolder] over an abstract host
    (vault, workspace, file manager, notices and console). *)

From Stdlib Require Import List Ascii String ZArith NArith Lia Bool.
From Stdlib Require Import FinFun.
Import ListNotations.

Local Open Scope Z_scope.

(** ** JavaScript strings

    A string is a sequence of code units.  Every operation the plugin uses
    ([lastIndexOf], [indexOf], [substring], concatenation, reversal of the
    code units) treats the units as opaque, so they are modelled by
    [ascii]. *)

Definition jsstring := list ascii.

(** Literals are written with the standard string notation. *)
Definition str (s : string) : jsstring := list_ascii_of_string s.

(** The double quote, code unit 34, as it stands in the notices. *)
Definition quote : jsstring := [ascii_of_nat 34].

Module JS.

(** [ToBoolean] on a string: only the empty string is falsy. *)
Definition truthy (s : jsstring) : bool :=
  match s with
  | [] => false
  | _ :: _ => true
  end.

(** [a || b] on strings. *)
Definition or_else (a b : jsstring) : jsstring :=
  if truthy a then a else b.

(** [a === b] on strings. *)
Definition strict_eq (a b : jsstring) : bool :=
  if list_eq_dec ascii_dec a b then true else false.

Definition length (s : jsstring) : Z := Z.of_nat (List.length s).

(** [s.indexOf(c)] for a one-unit search string: the position of the first
    occurrence, or -1. *)
Fixpoint indexOf_from (c : ascii) (s : jsstring) (i : Z) : Z :=
  match s with
  | [] => -1
  | x :: t => if Ascii.eqb x c then i else indexOf_from c t (i + 1)
  end.

Definition indexOf (s : jsstring) (c : ascii) : Z := indexOf_from c s 0.

(** [s.lastIndexOf(c)] for a one-unit search string: the position of the
    last occurrence, or -1. *)
Fixpoint lastIndexOf_from (c : ascii) (s : jsstring) (i found : Z) : Z :=
  match s with
  | [] => found
  | x :: t => lastIndexOf_from c t (i + 1) (if Ascii.eqb x c then i else found)
  end.

Definition lastIndexOf (s : jsstring) (c : ascii) : Z :=
  lastIndexOf_from c s 0 (-1).

(** Both arguments of [substring] are clamped to [0 .. length]. *)
Definition clamp (len i : Z) : Z := Z.max 0 (Z.min i len).

(** [s.substring(start, end)]: the arguments are clamped, and swapped when
    [start] is the larger one. *)
Definition substring (s : jsstring) (start finish : Z) : jsstring :=
  let len := length s in
  let a := clamp len start in
  let b := clamp len finish in
  let lo := Z.min a b in
  let hi := Z.max a b in
  firstn (Z.to_nat (hi - lo)) (skipn (Z.to_nat lo) s).

(** [s.substring(start)]: the end defaults to the length. *)
Definition substring_from (s : jsstring) (start : Z) : jsstring :=
  substring s start (length s).

(** [s.split('').reverse().join('')]. *)
Definition reversed (s : jsstring) : jsstring := rev s.

(** The digit characters of [Number.prototype.toString]: 0-9 then a-z. *)
Definition digitChar (d : N) : ascii :=
  if (d <? 10)%N then ascii_of_N (48 + d) else ascii_of_N (87 + d).

(** Little-endian digits of a non-negative integer; [fuel] bounds the
    number of digits. *)
Fixpoint digits_le (fuel : nat) (radix n : N) : list N :=
  match fuel with
  | O => []
  | S f =>
      (n mod radix)%N ::
        (if (n / radix =? 0)%N then [] else digits_le f radix (n / radix)%N)
  end.

(** A number below [2 ^ size n] has at most [size n] digits in any radix
    of at least 2; one more covers zero. *)
Definition digit_fuel (n : N) : nat := S (N.size_nat n).

(** [n.toString(radix)] for a non-negative integer [n]: most significant
    digit first. *)
Definition toString (n radix : N) : jsstring :=
  map digitChar (rev (digits_le (digit_fuel n) radix n)).

(** Template-literal interpolation of a number: [ToString], decimal for
    the integers considered here. *)
Definition numberToString (n : N) : jsstring := toString n 10.

End JS.

(** ** The cepoch prefix transform *)

Section Prefix.

(** The value of [Date.now()]: milliseconds since the epoch. *)
Variable now : N.

(** [Math.floor(Date.now() / 1000).toString(36)], then
    [.split('').reverse().join('')].  [Date.now()] is an integer, so the
    floor of the quotient is the integer quotient. *)
Definition cepoch : jsstring :=
  JS.reversed (JS.toString (now / 1000)%N 36).

(** The locals [extension], [nameWithoutExt] and [baseName] of
    [processFilenameWithPrefix]. *)
Definition prefix_extension (originalName : jsstring) : jsstring :=
  let lastDotIndex := JS.lastIndexOf originalName "."%char in
  if 0 <? lastDotIndex then JS.substring_from originalName lastDotIndex
  else [].

Definition prefix_nameWithoutExt (originalName : jsstring) : jsstring :=
  let lastDotIndex := JS.lastIndexOf originalName "."%char in
  if 0 <? lastDotIndex then JS.substring originalName 0 lastDotIndex
  else originalName.

Definition prefix_baseName (originalName : jsstring) : jsstring :=
  let nameWithoutExt := prefix_nameWithoutExt originalName in
  let underscoreIndex := JS.indexOf nameWithoutExt "_"%char in
  if 0 <? underscoreIndex
  then JS.substring_from nameWithoutExt (underscoreIndex + 1)
  else nameWithoutExt.

Definition processFilenameWithPrefix
    (originalName : jsstring) (addPrefix : bool) : jsstring :=
  if negb addPrefix then originalName
  else
    cepoch ++ str "_" ++ prefix_baseName originalName
           ++ prefix_extension originalName.

End Prefix.

(** ** Conflict resolution in [duplicateFileToFolder] *)

(** The locals [baseName] and [extension] parsed from the processed file
    name. *)
Definition dup_baseName (processedFileName : jsstring) : jsstring :=
  JS.or_else
    (JS.substring processedFileName 0
       (JS.lastIndexOf processedFileName "."%char))
    processedFileName.

Definition dup_extension (processedFileName : jsstring) : jsstring :=
  JS.or_else
    (JS.substring_from processedFileName
       (JS.lastIndexOf processedFileName "."%char))
    [].

(** [targetFolder ? `${targetFolder}/${fileName}` : fileName], the
    expression both commands build their destination path with. *)
Definition newPathIn (targetFolder fileName : jsstring) : jsstring :=
  if JS.truthy targetFolder then targetFolder ++ str "/" ++ fileName
  else fileName.

(** [`${baseName} ${counter}${extension}`] *)
Definition numberedName (baseName : jsstring) (counter : N)
    (extension : jsstring) : jsstring :=
  baseName ++ str " " ++ JS.numberToString counter ++ extension.

(** The [while] loop: [present] is the host's existence check
    ([getAbstractFileByPath] returning a non-null item); each unit of
    [fuel] pays for one evaluation of the loop condition.  The counter is
    a JavaScript number holding an integer; [counter++] is exact below
    2^53, and the loop raises the counter once per occupied path it
    meets. *)
Fixpoint resolveLoop (fuel : nat) (present : jsstring -> bool)
    (targetFolder baseName extension newPath : jsstring) (counter : N)
    : option jsstring :=
  match fuel with
  | O => None
  | S f =>
      if present newPath then
        resolveLoop f present targetFolder baseName extension
          (newPathIn targetFolder (numberedName baseName counter extension))
          (counter + 1)%N
      else Some newPath
  end.

(** From the parse of the file name to the end of the loop. *)
Definition resolvePath (fuel : nat) (present : jsstring -> bool)
    (targetFolder processedFileName : jsstring) : option jsstring :=
  let baseName := dup_baseName processedFileName in
  let extension := dup_extension processedFileName in
  let newPath := newPathIn targetFolder processedFileName in
  resolveLoop fuel present targetFolder baseName extension newPath 1%N.

(** The path the loop body builds for the counter value [k]. *)
Definition numberedPath (targetFolder baseName extension : jsstring) (k : N)
    : jsstring :=
  newPathIn targetFolder (numberedName baseName k extension).

(** The sequence of paths the loop tries: the desired name, then the
    numbered names from 1 on. *)
Definition candidate (targetFolder processedFileName : jsstring) (k : N)
    : jsstring :=
  if (k =? 0)%N then newPathIn targetFolder processedFileName
  else numberedPath targetFolder (dup_baseName processedFileName)
         (dup_extension processedFileName) k.

(** ** The host

    The plugin runs against the host application's API.  The host is an
    interface here: a type of worlds (vault, workspace, clock) and the
    calls the commands make.  A call that can reject its promise returns a
    [Result]. *)

Record Error := { message : jsstring }.

Inductive Result (A : Type) : Type :=
| Ok (a : A)
| Err (e : Error).
Arguments Ok {A} a.
Arguments Err {A} e.

(** What [getActiveFile] and [getAbstractFileByPath] hand out;
    [isTFile] is the answer to [instanceof TFile]. *)
Record TAbstractFile := {
  path : jsstring;
  name : jsstring;
  isTFile : bool
}.

Class Host (World : Type) := {
  (** [Date.now()] *)
  dateNow : World -> N;
  (** [app.workspace.getActiveFile()] *)
  getActiveFile : World -> option TAbstractFile;
  (** [app.vault.getAbstractFileByPath(path)] *)
  getAbstractFileByPath : World -> jsstring -> option TAbstractFile;
  (** [app.vault.createFolder(path)] *)
  createFolder : jsstring -> World -> Result unit * World;
  (** [app.vault.read(file)] *)
  read : TAbstractFile -> World -> Result jsstring * World;
  (** [app.vault.create(path, content)] *)
  create : jsstring -> jsstring -> World -> Result TAbstractFile * World;
  (** [app.fileManager.renameFile(file, newPath)].  The host changes the
      file object it is given in place, so a successful call hands back
      the object as it stands afterwards. *)
  renameFile :
    TAbstractFile -> jsstring -> World -> Result TAbstractFile * World;
  (** [app.workspace.getLeaf('tab').openFile(file)] *)
  openFile : TAbstractFile -> World -> Result unit * World
}.

(** What a command does that an observer sees: notices, console output
    and the mutating host calls, in the order they happen. *)
Inductive Event : Type :=
| Notice (text : jsstring)
| ConsoleError (label : jsstring) (error : Error)
| CreateFolder (folderPath : jsstring)
| Read (file : TAbstractFile)
| Create (filePath content : jsstring)
| RenameFile (file : TAbstractFile) (newPath : jsstring)
| OpenFile (file : TAbstractFile).

(** How a piece of code ends: with a value, with an exception, or not at
    all (the loop ran out of fuel). *)
Inductive Outcome (A : Type) : Type :=
| Returned (a : A)
| Thrown (e : Error)
| Diverged.
Arguments Returned {A} a.
Arguments Thrown {A} e.
Arguments Diverged {A}.

Section Commands.

Context {World : Type} `{Host World}.

Record State := {
  world : World;
  trace : list Event
}.

(** State and exceptions; the state survives a throw. *)
Definition M (A : Type) : Type := State -> Outcome A * State.

(** An object reference is truthy, [null] is falsy. *)
Definition nonNull {A} (o : option A) : bool :=
  match o with
  | Some _ => true
  | None => false
  end.

Definition ret {A} (a : A) : M A := fun s => (Returned a, s).

Definition bind {A B} (m : M A) (k : A -> M B) : M B :=
  fun s =>
    match m s with
    | (Returned a, s') => k a s'
    | (Thrown e, s') => (Thrown e, s')
    | (Diverged, s') => (Diverged, s')
    end.

(** [try { body } catch (error) { handler }] *)
Definition tryCatch {A} (body : M A) (handler : Error -> M A) : M A :=
  fun s =>
    match body s with
    | (Thrown e, s') => handler e s'
    | r => r
    end.

Definition emit (ev : Event) : M unit :=
  fun s => (Returned tt, {| world := world s; trace := trace s ++ [ev] |}).

(** A read-only question to the host. *)
Definition ask {A} (q : World -> A) : M A :=
  fun s => (Returned (q (world s)), s).

(** A host call that can reject; it is recorded before it runs. *)
Definition call {A} (ev : Event) (op : World -> Result A * World) : M A :=
  fun s =>
    let (r, w') := op (world s) in
    let s' := {| world := w'; trace := trace s ++ [ev] |} in
    match r with
    | Ok a => (Returned a, s')
    | Err e => (Thrown e, s')
    end.

Definition ofOption {A} (o : option A) : M A :=
  fun s =>
    match o with
    | Some a => (Returned a, s)
    | None => (Diverged, s)
    end.

End Commands.

Arguments State World : clear implicits.
Arguments M World A : clear implicits.

Declare Scope cmd_scope.
Delimit Scope cmd_scope with cmd.
Notation "x <- m ;; k" := (bind m (fun x => k))
  (at level 61, m at next level, right associativity) : cmd_scope.
Notation "m ;;; k" := (bind m (fun _ => k))
  (at level 61, right associativity) : cmd_scope.

(** ** The commands of [QuickMovePlugin] *)

Section Plugin.

Context {World : Type} `{Host World}.

Local Open Scope cmd_scope.

(** [ensureFolderExists] *)
Definition ensureFolderExists (folderPath : jsstring) : M World unit :=
  if negb (JS.truthy folderPath) then ret tt
  else
    folder <- ask (fun w => getAbstractFileByPath w folderPath) ;;
    match folder with
    | None => call (CreateFolder folderPath) (createFolder folderPath)
    | Some _ => ret tt
    end.

(** [targetFolder || "vault root"] in the closing notices. *)
Definition folderLabel (targetFolder : jsstring) : jsstring :=
  JS.or_else targetFolder (str "vault root").

(** The closing notices: the verb, the quoted file name, the folder. *)
Definition doneNotice (verb fileName targetFolder : jsstring) : jsstring :=
  verb ++ str " " ++ quote ++ fileName ++ quote ++ str " to "
       ++ folderLabel targetFolder.

(** The [try] block of [moveCurrentFileToFolder].  The closing notice
    reads [activeFile.name] after the rename, from the object the host
    has changed. *)
Definition move_try (activeFile : TAbstractFile)
    (targetFolder : jsstring) (addPrefix : bool) : M World unit :=
  ensureFolderExists targetFolder ;;;
  now <- ask dateNow ;;
  let newFileName :=
    processFilenameWithPrefix now (name activeFile) addPrefix in
  let newPath := newPathIn targetFolder newFileName in
  found <- ask (fun w => getAbstractFileByPath w newPath) ;;
  match found with
  | Some _ => emit (Notice (str "File already exists at " ++ newPath))
  | None =>
      renamed <- call (RenameFile activeFile newPath)
                   (renameFile activeFile newPath) ;;
      emit (Notice (doneNotice (str "Moved") (name renamed) targetFolder))
  end.

(** The [catch] block of [moveCurrentFileToFolder]. *)
Definition move_catch (error : Error) : M World unit :=
  emit (ConsoleError (str "Error moving file:") error) ;;;
  emit (Notice (str "Error moving file: " ++ message error)).

Definition moveCurrentFileToFolder
    (targetFolder : jsstring) (addPrefix : bool) : M World unit :=
  activeFile <- ask getActiveFile ;;
  match activeFile with
  | None => emit (Notice (str "No active file to move"))
  | Some activeFile =>
      if negb (isTFile activeFile)
      then emit (Notice (str "Active item is not a file"))
      else tryCatch (move_try activeFile targetFolder addPrefix) move_catch
  end.

(** The [try] block of [duplicateFileToFolder]; [fuel] bounds the
    iterations of its loop. *)
Definition duplicate_try (fuel : nat) (activeFile : TAbstractFile)
    (targetFolder : jsstring) (addPrefix : bool) : M World unit :=
  ensureFolderExists targetFolder ;;;
  content <- call (Read activeFile) (read activeFile) ;;
  now <- ask dateNow ;;
  let processedFileName :=
    processFilenameWithPrefix now (name activeFile) addPrefix in
  found <- ask (fun w =>
             resolvePath fuel
               (fun p => nonNull (getAbstractFileByPath w p))
               targetFolder processedFileName) ;;
  newPath <- ofOption found ;;
  newFile <- call (Create newPath content) (create newPath content) ;;
  call (OpenFile newFile) (openFile newFile) ;;;
  emit (Notice
          (doneNotice (str "Duplicated") (name activeFile) targetFolder)).

(** The [catch] block of [duplicateFileToFolder]. *)
Definition duplicate_catch (error : Error) : M World unit :=
  emit (ConsoleError (str "Error duplicating file:") error) ;;;
  emit (Notice (str "Error duplicating file: " ++ message error)).

Definition duplicateFileToFolder (fuel : nat)
    (targetFolder : jsstring) (addPrefix : bool) : M World unit :=
  activeFile <- ask getActiveFile ;;
  match activeFile with
  | None => emit (Notice (str "No active file to duplicate"))
  | Some activeFile =>
      if negb (isTFile activeFile)
      then emit (Notice (str "Active item is not a file"))
      else
        tryCatch (duplicate_try fuel activeFile targetFolder addPrefix)
          duplicate_catch
  end.

(** [moveToParentFolder]; the inner calls leave [addPrefix] at its
    default, [false]. *)
Definition moveToParentFolder : M World unit :=
  activeFile <- ask getActiveFile ;;
  match activeFile with
  | None => emit (Notice (str "No active file to move"))
  | Some activeFile =>
      let currentPath := path activeFile in
      let parentPath :=
        JS.substring currentPath 0 (JS.lastIndexOf currentPath "/"%char) in
      let grandParentPath :=
        JS.substring parentPath 0 (JS.lastIndexOf parentPath "/"%char) in
      if JS.strict_eq grandParentPath []
      then moveCurrentFileToFolder [] false
      else moveCurrentFileToFolder grandParentPath false
  end.

End Plugin.

(** ** An in-memory host

    A small vault kept as an association list, with the clock and the
    active file beside it.  It implements the [Host] interface the way the
    host application documents its calls, and serves to run the commands
    on concrete vaults. *)

Module MemVault.

Inductive Node : Type :=
| FileNode (content : jsstring)
| FolderNode.

Record World := {
  clock : N;
  active : option TAbstractFile;
  nodes : list (jsstring * Node)
}.

Fixpoint lookup (p : jsstring) (l : list (jsstring * Node)) : option Node :=
  match l with
  | [] => None
  | (q, n) :: t => if JS.strict_eq q p then Some n else lookup p t
  end.

Fixpoint remove (p : jsstring) (l : list (jsstring * Node))
    : list (jsstring * Node) :=
  match l with
  | [] => []
  | (q, n) :: t => if JS.strict_eq q p then remove p t else (q, n) :: remove p t
  end.

(** The last segment of a path. *)
Definition basename (p : jsstring) : jsstring :=
  JS.substring_from p (JS.lastIndexOf p "/"%char + 1).

Definition fileAt (p : jsstring) : TAbstractFile :=
  {| path := p; name := basename p; isTFile := true |}.

Definition folderAt (p : jsstring) : TAbstractFile :=
  {| path := p; name := basename p; isTFile := false |}.

Definition itemAt (w : World) (p : jsstring) : option TAbstractFile :=
  match lookup p (nodes w) with
  | Some (FileNode _) => Some (fileAt p)
  | Some FolderNode => Some (folderAt p)
  | None => None
  end.

Definition withNodes (w : World) (l : list (jsstring * Node)) : World :=
  {| clock := clock w; active := active w; nodes := l |}.

Definition mkdir (p : jsstring) (w : World) : Result unit * World :=
  match lookup p (nodes w) with
  | Some _ => (Err {| message := str "Folder already exists." |}, w)
  | None => (Ok tt, withNodes w (nodes w ++ [(p, FolderNode)]))
  end.

Definition readFile (f : TAbstractFile) (w : World)
    : Result jsstring * World :=
  match lookup (path f) (nodes w) with
  | Some (FileNode c) => (Ok c, w)
  | _ => (Err {| message := str "ENOENT: no such file or directory" |}, w)
  end.

Definition createFile (p content : jsstring) (w : World)
    : Result TAbstractFile * World :=
  match lookup p (nodes w) with
  | Some _ => (Err {| message := str "File already exists." |}, w)
  | None => (Ok (fileAt p), withNodes w (nodes w ++ [(p, FileNode content)]))
  end.

Definition rename (f : TAbstractFile) (newPath : jsstring) (w : World)
    : Result TAbstractFile * World :=
  match lookup (path f) (nodes w), lookup newPath (nodes w) with
  | Some n, None =>
      (Ok {| path := newPath; name := basename newPath;
             isTFile := isTFile f |},
       {| clock := clock w;
          active :=
            match active w with
            | Some a =>
                if JS.strict_eq (path a) (path f) then Some (fileAt newPath)
                else Some a
            | None => None
            end;
          nodes := remove (path f) (nodes w) ++ [(newPath, n)] |})
  | Some _, Some _ =>
      (Err {| message := str "Destination file already exists!" |}, w)
  | None, _ => (Err {| message := str "ENOENT: no such file or directory" |}, w)
  end.

Definition open (f : TAbstractFile) (w : World) : Result unit * World :=
  (Ok tt, {| clock := clock w; active := Some f; nodes := nodes w |}).

#[global] Instance host : Host World := {
  dateNow := clock;
  getActiveFile := active;
  getAbstractFileByPath := itemAt;
  createFolder := mkdir;
  read := readFile;
  create := createFile;
  renameFile := rename;
  openFile := open
}.

(** A command starts with an empty trace. *)
Definition start (w : World) : State World := {| world := w; trace := [] |}.

(** Some vaults.  One note at the root, open in the editor. *)
Definition oneNote : World :=
  {| clock := 1700000000123;
     active := Some (fileAt (str "note.md"));
     nodes := [(str "note.md", FileNode (str "hello"))] |}.

(** The same with an [Archive] folder that already holds a [note.md]. *)
Definition archived : World :=
  {| clock := 1700000000123;
     active := Some (fileAt (str "note.md"));
     nodes := [(str "note.md", FileNode (str "hello"));
               (str "Archive", FolderNode);
               (str "Archive/note.md", FileNode (str "older"))] |}.

(** Nothing open. *)
Definition idle : World :=
  {| clock := 1700000000123; active := None; nodes := [] |}.

(** The open note has been deleted behind the editor's back. *)
Definition stale : World :=
  {| clock := 1700000000123;
     active := Some (fileAt (str "note.md"));
     nodes := [] |}.

End MemVault.

(** ** Reading digit strings

    The inverse of [JS.toString], as [parseInt(s, radix)] reads a string of
    digits: it is what makes a digit string the representation of a
    number. *)

Definition digitValue (ch : ascii) : N :=
  let n := N_of_ascii ch in
  if (n <? 58)%N then (n - 48)%N else (n - 87)%N.

Definition parseDigits (radix : N) (s : jsstring) : N :=
  fold_left (fun acc ch => (acc * radix + digitValue ch)%N) s 0%N.

(** The value of a list of digits, least significant first. *)
Definition value_le (radix : N) (ds : list N) : N :=
  fold_right (fun d v => (d + radix * v)%N) 0%N ds.

(** ** Finite sets of occupied paths

    The existence check of a vault whose items are exactly the paths of a
    list. *)

Definition occupiedBy (occupied : list jsstring) (p : jsstring) : bool :=
  if in_dec (list_eq_dec ascii_dec) p occupied then true else false.

(** ** Describing final states *)

(** The state [s] after the events [evs], the world untouched. *)
Definition logged {World : Type} (s : State World) (evs : list Event)
    : State World :=
  {| world := world s; trace := trace s ++ evs |}.

(** The state after a host call left the world [w] behind. *)
Definition after {World : Type} (s : State World) (w : World)
    (evs : list Event) : State World :=
  {| world := w; trace := trace s ++ evs |}.

(** ** Proof automation *)

(** Finds an event in the trace of a run that has been unfolded to its
    host results. *)
Ltac in_trace :=
  cbv [move_catch duplicate_catch emit bind logged after];
  cbn [snd fst trace world];
  rewrite ?in_app_iff; cbn [In]; auto 8.

(** ** Repeated prefixing *)

(** The transform applied once per clock reading of [times], in order,
    each time to the name the previous application produced. *)
Definition reprefixAll (times : list N) (fileName : jsstring) : jsstring :=
  fold_left (fun n t => processFilenameWithPrefix t n true) times fileName.

(** ** What a command adds to the trace *)

(** Every event the command [m] adds to the trace satisfies [P]. *)
Definition onlyEmits {World A : Type} (P : Event -> Prop) (m : M World A)
    : Prop :=
  forall s : State World,
    exists added,
      trace (snd (m s)) = trace s ++ added /\ Forall P added.

(** The events of moving: notices, console output, folder creation and
    renaming; no read, no create, no open. *)
Definition movesOnly (ev : Event) : Prop :=
  match ev with
  | Notice _ | ConsoleError _ _ | CreateFolder _ | RenameFile _ _ => True
  | Read _ | Create _ _ | OpenFile _ => False
  end.

(** Everything but renaming. *)
Definition renamesNothing (ev : Event) : Prop :=
  match ev with
  | RenameFile _ _ => False
  | _ => True
  end.

(** ** More vaults *)

(** A note two folders deep, open in the editor. *)
Definition nestedNote : MemVault.World :=
  {| MemVault.clock := 1700000000123;
     MemVault.active := Some (MemVault.fileAt (str "Projects/Work/file.md"));
     MemVault.nodes :=
       [(str "Projects", MemVault.FolderNode);
        (str "Projects/Work", MemVault.FolderNode);
        (str "Projects/Work/file.md", MemVault.FileNode (str "text"))] |}.

(** ** Settings *)

(** [interface FolderMapping] *)
Record FolderMapping := {
  id : jsstring;
  folderPath : jsstring;
  displayName : jsstring;
  addCepochPrefix : bool;
  copyInsteadOfMove : bool
}.

(** [interface QuickMoveSettings] *)
Record QuickMoveSettings := {
  folderMappings : list FolderMapping
}.

(** A mapping as [DEFAULT_SETTINGS] lists them: folder path and display
    name, both flags off. *)
Definition plainMapping (i p d : string) : FolderMapping :=
  {| id := str i; folderPath := str p; displayName := str d;
     addCepochPrefix := false; copyInsteadOfMove := false |}.

Definition DEFAULT_SETTINGS : QuickMoveSettings :=
  {| folderMappings :=
       [plainMapping "archive" "Archive" "Archive";
        plainMapping "inbox" "Inbox" "Inbox";
        plainMapping "projects" "Projects" "Projects";
        plainMapping "daily-notes" "Daily Notes" "Daily Notes";
        plainMapping "templates" "Templates" "Templates";
        plainMapping "resources" "Resources" "Resources"] |}.

(** *** The settings tab

    Each control of [QuickMoveSettingTab.display] changes the mappings in
    one way; [index] is the position the control was built for. *)

(** [`folder-${Date.now()}`], the id of a mapping made by "Add Folder". *)
Definition newMappingId (now : N) : jsstring :=
  str "folder-" ++ JS.numberToString now.

(** The "Add Folder" button: [folderMappings.push({...})]. *)
Definition addFolder (now : N) (mappings : list FolderMapping)
    : list FolderMapping :=
  mappings ++
    [{| id := newMappingId now; folderPath := []; displayName := [];
        addCepochPrefix := false; copyInsteadOfMove := false |}].

(** The "Delete" button: [folderMappings.splice(index, 1)]. *)
Fixpoint deleteFolder (index : nat) (mappings : list FolderMapping)
    : list FolderMapping :=
  match mappings, index with
  | [], _ => []
  | _ :: rest, O => rest
  | m :: rest, S i => m :: deleteFolder i rest
  end.

(** An [onChange] handler: it assigns to one field of its mapping. *)
Fixpoint changeMapping (change : FolderMapping -> FolderMapping)
    (index : nat) (mappings : list FolderMapping) : list FolderMapping :=
  match mappings, index with
  | [], _ => []
  | m :: rest, O => change m :: rest
  | m :: rest, S i => m :: changeMapping change i rest
  end.

Definition setFolderPath (value : jsstring) (m : FolderMapping)
    : FolderMapping :=
  {| id := id m; folderPath := value; displayName := displayName m;
     addCepochPrefix := addCepochPrefix m;
     copyInsteadOfMove := copyInsteadOfMove m |}.

Definition setDisplayName (value : jsstring) (m : FolderMapping)
    : FolderMapping :=
  {| id := id m; folderPath := folderPath m; displayName := value;
     addCepochPrefix := addCepochPrefix m;
     copyInsteadOfMove := copyInsteadOfMove m |}.

Definition setAddCepochPrefix (value : bool) (m : FolderMapping)
    : FolderMapping :=
  {| id := id m; folderPath := folderPath m; displayName := displayName m;
     addCepochPrefix := value;
     copyInsteadOfMove := copyInsteadOfMove m |}.

Definition setCopyInsteadOfMove (value : bool) (m : FolderMapping)
    : FolderMapping :=
  {| id := id m; folderPath := folderPath m; displayName := displayName m;
     addCepochPrefix := addCepochPrefix m;
     copyInsteadOfMove := value |}.

(** What the user can do in the settings tab. *)
Inductive SettingsEdit : Type :=
| AddFolder (now : N)
| SetFolderPath (index : nat) (value : jsstring)
| SetDisplayName (index : nat) (value : jsstring)
| SetAddCepochPrefix (index : nat) (value : bool)
| SetCopyInsteadOfMove (index : nat) (value : bool)
| DeleteFolder (index : nat).

Definition applyEdit (mappings : list FolderMapping) (edit : SettingsEdit)
    : list FolderMapping :=
  match edit with
  | AddFolder now => addFolder now mappings
  | SetFolderPath i v => changeMapping (setFolderPath v) i mappings
  | SetDisplayName i v => changeMapping (setDisplayName v) i mappings
  | SetAddCepochPrefix i v => changeMapping (setAddCepochPrefix v) i mappings
  | SetCopyInsteadOfMove i v =>
      changeMapping (setCopyInsteadOfMove v) i mappings
  | DeleteFolder i => deleteFolder i mappings
  end.

Definition applyEdits (edits : list SettingsEdit)
    (mappings : list FolderMapping) : list FolderMapping :=
  fold_left applyEdit edits mappings.

(** The clock readings of the "Add Folder" clicks among the edits. *)
Fixpoint addTimes (edits : list SettingsEdit) : list N :=
  match edits with
  | [] => []
  | AddFolder now :: rest => now :: addTimes rest
  | _ :: rest => addTimes rest
  end.

(** ** Command registration *)

(** The callbacks the plugin hands to [addCommand], one constructor per
    arrow function. *)
Inductive CommandCallback : Type :=
| FolderCallback (mapping : FolderMapping)
| ShowMoveMenu
| MoveToRoot
| ShowDuplicateMenu
| MoveToParent
| MoveToNewFolder.

(** The calls [registerFolderCommands] and [addUtilityCommands] make:
    [app.commands.removeCommand(id)] and [this.addCommand({id, name,
    callback})]. *)
Inductive RegistryCall : Type :=
| RemoveCommand (fullId : jsstring)
| AddCommand (commandId commandName : jsstring) (callback : CommandCallback).

Section Registration.

(** [this.manifest.id] *)
Variable manifestId : jsstring.

(** [`${this.manifest.id}:move-to-${mapping.id}`] *)
Definition removedCommandId (mapping : FolderMapping) : jsstring :=
  manifestId ++ str ":move-to-" ++ id mapping.

(** [`move-to-${mapping.id}`] *)
Definition folderCommandId (mapping : FolderMapping) : jsstring :=
  str "move-to-" ++ id mapping.

(** The two [forEach] loops of [registerFolderCommands]. *)
Definition registerFolderCommands (settings : QuickMoveSettings)
    : list RegistryCall :=
  map (fun mapping => RemoveCommand (removedCommandId mapping))
      (folderMappings settings)
  ++
  map (fun mapping =>
         AddCommand (folderCommandId mapping)
           (str "Move current file to " ++ displayName mapping)
           (FolderCallback mapping))
      (folderMappings settings).

Definition addUtilityCommands : list RegistryCall :=
  [AddCommand (str "show-move-menu") (str "Show quick move menu")
     ShowMoveMenu;
   AddCommand (str "move-to-root") (str "Move current file to vault root")
     MoveToRoot;
   AddCommand (str "show-duplicate-menu")
     (str "Show duplicate to folder menu") ShowDuplicateMenu;
   AddCommand (str "move-to-parent")
     (str "Move current file to parent folder") MoveToParent;
   AddCommand (str "move-to-new-folder")
     (str "Create new folder and move file there") MoveToNewFolder].

(** The registrations of [onload], in order. *)
Definition onload_registrations (settings : QuickMoveSettings)
    : list RegistryCall :=
  registerFolderCommands settings ++ addUtilityCommands.

End Registration.

(** The ids a list of calls adds commands under. *)
Fixpoint addedIds (calls : list RegistryCall) : list jsstring :=
  match calls with
  | [] => []
  | AddCommand i _ _ :: rest => i :: addedIds rest
  | RemoveCommand _ :: rest => addedIds rest
  end.

(** ** Trimming

    [String.prototype.trim] removes white space and line terminators from
    both ends.  It is the one operation here that looks at what the units
    of a string are.  A [jsstring] holds text outside ASCII as the bytes
    of its UTF-8 encoding (the literals of [str] do, and so do the icons
    below), so the characters [trim] removes are byte sequences: the six
    ASCII ones, and the encodings of U+00A0, U+1680, U+2000 to U+200A,
    U+2028, U+2029, U+202F, U+205F, U+3000 and U+FEFF. *)

Definition bytes (codes : list nat) : jsstring := map ascii_of_nat codes.

Definition whiteSpace : list jsstring :=
  [bytes [9]; bytes [10]; bytes [11]; bytes [12]; bytes [13]; bytes [32];
   bytes [194; 160];
   bytes [225; 154; 128];
   bytes [226; 128; 128]; bytes [226; 128; 129]; bytes [226; 128; 130];
   bytes [226; 128; 131]; bytes [226; 128; 132]; bytes [226; 128; 133];
   bytes [226; 128; 134]; bytes [226; 128; 135]; bytes [226; 128; 136];
   bytes [226; 128; 137]; bytes [226; 128; 138];
   bytes [226; 128; 168]; bytes [226; 128; 169];
   bytes [226; 128; 175];
   bytes [226; 129; 159];
   bytes [227; 128; 128];
   bytes [239; 187; 191]]%nat.

(** [s] without the prefix [p], when it starts with it. *)
Fixpoint stripPrefix (p s : jsstring) : option jsstring :=
  match p, s with
  | [], _ => Some s
  | c :: p', d :: s' => if Ascii.eqb c d then stripPrefix p' s' else None
  | _ :: _, [] => None
  end.

(** [s] without the entry of [table] it starts with, if there is one. *)
Fixpoint stripFirst (table : list jsstring) (s : jsstring)
    : option jsstring :=
  match table with
  | [] => None
  | p :: rest =>
      match stripPrefix p s with
      | Some r => Some r
      | None => stripFirst rest s
      end
  end.

(** Entries of [table] are taken off the front for as long as there is
    one; [fuel] bounds how many. *)
Fixpoint stripLeading (table : list jsstring) (fuel : nat) (s : jsstring)
    : jsstring :=
  match fuel with
  | O => s
  | S f =>
      match stripFirst table s with
      | Some r => stripLeading table f r
      | None => s
      end
  end.

Definition trimStart (s : jsstring) : jsstring :=
  stripLeading whiteSpace (List.length s) s.

Definition trimEnd (s : jsstring) : jsstring :=
  rev (stripLeading (map (@rev ascii) whiteSpace) (List.length s) (rev s)).

Definition trim (s : jsstring) : jsstring := trimEnd (trimStart s).

(** A string of white space characters only. *)
Definition blank (s : jsstring) : Prop :=
  exists chars,
    Forall (fun c => In c whiteSpace) chars /\ s = List.concat chars.

(** A string that does not begin, respectively end, with a white space
    character, whatever is put behind or before it. *)
Definition startsClean (s : jsstring) : Prop :=
  forall p x, In p whiteSpace -> stripPrefix p (s ++ x) = None.

Definition endsClean (s : jsstring) : Prop :=
  forall p x, In p whiteSpace -> stripPrefix (rev p) (rev s ++ x) = None.

(** ** Menus and modals *)

(** An entry of the folder list, [{ name, path }]. *)
Record FolderEntry := {
  entryName : jsstring;
  entryPath : jsstring
}.

(** The icons in front of the entry names, code points U+1F4C1 and
    U+1F3E0, held as their UTF-8 bytes; nothing looks inside a name. *)
Definition folderIcon : jsstring := bytes [240; 159; 147; 129]%nat.
Definition houseIcon : jsstring := bytes [240; 159; 143; 160]%nat.

(** [this.settings.folderMappings.map(...)] of both menus. *)
Definition menuEntries (settings : QuickMoveSettings) : list FolderEntry :=
  map (fun mapping =>
         {| entryName := folderIcon ++ str " " ++ displayName mapping;
            entryPath := folderPath mapping |})
      (folderMappings settings).

(** [folderMappings.find((m) => m.folderPath === selectedFolder.path)] *)
Definition findMapping (settings : QuickMoveSettings)
    (selectedFolder : FolderEntry) : option FolderMapping :=
  find (fun m => JS.strict_eq (folderPath m) (entryPath selectedFolder))
       (folderMappings settings).

(** [mapping?.flag ?? false] *)
Definition flagOrFalse (flag : FolderMapping -> bool)
    (mapping : option FolderMapping) : bool :=
  match mapping with
  | Some m => flag m
  | None => false
  end.

Section Menus.

Context {World : Type} `{Host World}.

Local Open Scope cmd_scope.

(** The callback of the command of a mapping. *)
Definition folderCallback (fuel : nat) (mapping : FolderMapping)
    : M World unit :=
  if copyInsteadOfMove mapping
  then duplicateFileToFolder fuel (folderPath mapping)
         (addCepochPrefix mapping)
  else moveCurrentFileToFolder (folderPath mapping) (addCepochPrefix mapping).

(** The [onSelect] callback of [showMoveMenu]. *)
Definition showMoveMenu_onSelect (fuel : nat) (settings : QuickMoveSettings)
    (selectedFolder : FolderEntry) : M World unit :=
  let mapping := findMapping settings selectedFolder in
  let addPrefix := flagOrFalse addCepochPrefix mapping in
  let copyInstead := flagOrFalse copyInsteadOfMove mapping in
  if copyInstead
  then duplicateFileToFolder fuel (entryPath selectedFolder) addPrefix
  else moveCurrentFileToFolder (entryPath selectedFolder) addPrefix.

(** The [onSelect] callback of [showDuplicateMenu]. *)
Definition showDuplicateMenu_onSelect (fuel : nat)
    (settings : QuickMoveSettings) (selectedFolder : FolderEntry)
    : M World unit :=
  let mapping := findMapping settings selectedFolder in
  let addPrefix := flagOrFalse addCepochPrefix mapping in
  duplicateFileToFolder fuel (entryPath selectedFolder) addPrefix.

(** The [onSubmit] callback of [moveToNewFolder]. *)
Definition moveToNewFolder_onSubmit (folderName : jsstring) : M World unit :=
  if JS.truthy (trim folderName)
  then moveCurrentFileToFolder (trim folderName) false
  else ret tt.

(** A modal that has been opened, with what it was constructed from. *)
Inductive Modal : Type :=
| FolderSuggestionModal (folders : list FolderEntry)
    (onSelect : FolderEntry -> M World unit)
| TextInputModal (prompt defaultValue : jsstring)
    (onSubmit : jsstring -> M World unit).

(** A command that may leave a modal open. *)
Definition Shows : Type :=
  State World -> (Outcome unit * State World) * option Modal.

Definition showMoveMenu (fuel : nat) (settings : QuickMoveSettings)
    : Shows :=
  fun s =>
    match getActiveFile (world s) with
    | None => (emit (Notice (str "No active file to move")) s, None)
    | Some _ =>
        let folders :=
          {| entryName := houseIcon ++ str " Vault Root"; entryPath := [] |}
          :: menuEntries settings in
        ((Returned tt, s),
         Some (FolderSuggestionModal folders
                 (showMoveMenu_onSelect fuel settings)))
    end.

Definition showDuplicateMenu (fuel : nat) (settings : QuickMoveSettings)
    : Shows :=
  fun s =>
    match getActiveFile (world s) with
    | None => (emit (Notice (str "No active file to duplicate")) s, None)
    | Some _ =>
        ((Returned tt, s),
         Some (FolderSuggestionModal (menuEntries settings)
                 (showDuplicateMenu_onSelect fuel settings)))
    end.

Definition moveToNewFolder : Shows :=
  fun s =>
    match getActiveFile (world s) with
    | None => (emit (Notice (str "No active file to move")) s, None)
    | Some _ =>
        ((Returned tt, s),
         Some (TextInputModal (str "Enter new folder name:") []
                 moveToNewFolder_onSubmit))
    end.

(** [FolderSuggestionModal.onOpen] builds one item per folder; a click on
    the item at [index] calls [onSelect] with that folder. *)
Definition clickItem (modal : Modal) (index : nat) : M World unit :=
  match modal with
  | FolderSuggestionModal folders onSelect =>
      match nth_error folders index with
      | Some folder => onSelect folder
      | None => ret tt
      end
  | TextInputModal _ _ _ => ret tt
  end.

(** [TextInputModal]: the Create button and the Enter key call
    [onSubmit] with the text of the input. *)
Definition submitText (modal : Modal) (value : jsstring) : M World unit :=
  match modal with
  | TextInputModal _ _ onSubmit => onSubmit value
  | FolderSuggestionModal _ _ => ret tt
  end.

(** What runs when the host invokes a registered command. *)
Definition runCallback (fuel : nat) (settings : QuickMoveSettings)
    (callback : CommandCallback) : Shows :=
  fun s =>
    match callback with
    | FolderCallback mapping => (folderCallback fuel mapping s, None)
    | ShowMoveMenu => showMoveMenu fuel settings s
    | MoveToRoot => (moveCurrentFileToFolder [] false s, None)
    | ShowDuplicateMenu => showDuplicateMenu fuel settings s
    | MoveToParent => (moveToParentFolder s, None)
    | MoveToNewFolder => moveToNewFolder s
    end.

End Menus.

Arguments Modal World : clear implicits.
Arguments Shows World : clear implicits.

(** ** Settings for the examples *)

(** The defaults with a fresh mapping from "Add Folder" whose copy flag
    has been switched on and whose folder path is still empty. *)
Definition withBlankCopy : QuickMoveSettings :=
  {| folderMappings :=
       applyEdits [AddFolder 1700000000123; SetCopyInsteadOfMove 6 true]
         (folderMappings DEFAULT_SETTINGS) |}.

Example indexOf_ex : JS.indexOf (str "a_b_c") "_"%char = 1.
Proof. reflexivity. Qed.

Example lastIndexOf_ex : JS.lastIndexOf (str "a.b.c") "."%char = 3.
Proof. reflexivity. Qed.

Example lastIndexOf_none : JS.lastIndexOf (str "README") "."%char = -1.
Proof. reflexivity. Qed.

Example substring_neg : JS.substring_from (str "README") (-1) = str "README".
Proof. reflexivity. Qed.

Example substring_swap : JS.substring (str "abcdef") 4 1 = str "bcd".
Proof. reflexivity. Qed.

Example toString36_ex : JS.toString 1700000000 36 = str "s44we8".
Proof. reflexivity. Qed.

Example toString10_ex : JS.numberToString 120 = str "120".
Proof. reflexivity. Qed.

Example toString_zero : JS.toString 0 36 = str "0".
Proof. reflexivity. Qed.

(** ** Facts about the string helpers *)

Section StringFacts.

Variable c : ascii.

Lemma split_first (s : jsstring) :
  In c s -> exists p r, s = p ++ c :: r /\ ~ In c p.
Proof.
  induction s as [|x t IH]; intros Hin; [destruct Hin|].
  destruct (ascii_dec x c) as [->|Hne].
  - exists [], t. split; [reflexivity | intros []].
  - destruct Hin as [Heq|Hin]; [contradiction|].
    destruct (IH Hin) as (p & r & -> & Hp).
    exists (x :: p), r. split; [reflexivity|].
    intros [Hx|Hx]; [contradiction | exact (Hp Hx)].
Qed.

Lemma split_last (s : jsstring) :
  In c s -> exists p r, s = p ++ c :: r /\ ~ In c r.
Proof.
  induction s as [|x t IH]; intros Hin; [destruct Hin|].
  destruct (in_dec ascii_dec c t) as [Ht|Ht].
  - destruct (IH Ht) as (p & r & -> & Hr).
    exists (x :: p), r. split; [reflexivity | exact Hr].
  - destruct Hin as [->|Hin]; [|contradiction].
    exists [], t. split; [reflexivity | exact Ht].
Qed.

Lemma indexOf_from_notin (s : jsstring) (i : Z) :
  ~ In c s -> JS.indexOf_from c s i = -1.
Proof.
  revert i. induction s as [|x t IH]; intros i Hn; simpl; [reflexivity|].
  destruct (Ascii.eqb_spec x c) as [->|_].
  - exfalso. apply Hn. now left.
  - apply IH. intros Hin. apply Hn. now right.
Qed.

Lemma indexOf_from_app (p r : jsstring) (i : Z) :
  ~ In c p ->
  JS.indexOf_from c (p ++ c :: r) i = i + Z.of_nat (List.length p).
Proof.
  revert i. induction p as [|x t IH]; intros i Hn; simpl.
  - rewrite Ascii.eqb_refl. lia.
  - destruct (Ascii.eqb_spec x c) as [->|_].
    + exfalso. apply Hn. now left.
    + rewrite IH by (intros Hin; apply Hn; now right). lia.
Qed.

Lemma lastIndexOf_from_notin (s : jsstring) (i found : Z) :
  ~ In c s -> JS.lastIndexOf_from c s i found = found.
Proof.
  revert i found. induction s as [|x t IH]; intros i found Hn; simpl;
    [reflexivity|].
  destruct (Ascii.eqb_spec x c) as [->|_].
  - exfalso. apply Hn. now left.
  - apply IH. intros Hin. apply Hn. now right.
Qed.

Lemma lastIndexOf_from_app (p r : jsstring) (i found : Z) :
  ~ In c r ->
  JS.lastIndexOf_from c (p ++ c :: r) i found = i + Z.of_nat (List.length p).
Proof.
  revert i found. induction p as [|x t IH]; intros i found Hn; simpl.
  - rewrite Ascii.eqb_refl, lastIndexOf_from_notin by exact Hn. lia.
  - rewrite IH by exact Hn. lia.
Qed.

Lemma indexOf_notin (s : jsstring) : ~ In c s -> JS.indexOf s c = -1.
Proof. apply indexOf_from_notin. Qed.

Lemma indexOf_app (p r : jsstring) :
  ~ In c p -> JS.indexOf (p ++ c :: r) c = Z.of_nat (List.length p).
Proof. intros Hn. unfold JS.indexOf. now rewrite indexOf_from_app. Qed.

Lemma lastIndexOf_notin (s : jsstring) : ~ In c s -> JS.lastIndexOf s c = -1.
Proof. apply lastIndexOf_from_notin. Qed.

Lemma lastIndexOf_app (p r : jsstring) :
  ~ In c r -> JS.lastIndexOf (p ++ c :: r) c = Z.of_nat (List.length p).
Proof. intros Hn. unfold JS.lastIndexOf. now rewrite lastIndexOf_from_app. Qed.

End StringFacts.

Lemma substring_prefix (p r : jsstring) :
  JS.substring (p ++ r) 0 (Z.of_nat (List.length p)) = p.
Proof.
  unfold JS.substring, JS.clamp, JS.length. rewrite length_app.
  replace (Z.min _ (Z.max 0 (Z.min (Z.of_nat (List.length p)) _)))
    with 0 by lia.
  replace (Z.max _ (Z.max 0 (Z.min (Z.of_nat (List.length p)) _)) - 0)
    with (Z.of_nat (List.length p)) by lia.
  rewrite Nat2Z.id. simpl. rewrite firstn_app, firstn_all, Nat.sub_diag.
  simpl. apply app_nil_r.
Qed.

Lemma substring_from_suffix (p r : jsstring) :
  JS.substring_from (p ++ r) (Z.of_nat (List.length p)) = r.
Proof.
  unfold JS.substring_from, JS.substring, JS.clamp, JS.length.
  rewrite length_app.
  set (n := List.length p). set (m := List.length r).
  replace (Z.min (Z.max 0 (Z.min (Z.of_nat n) (Z.of_nat (n + m)))) _)
    with (Z.of_nat n) by lia.
  replace (Z.max (Z.max 0 (Z.min (Z.of_nat n) (Z.of_nat (n + m)))) _
           - Z.of_nat n) with (Z.of_nat m) by lia.
  rewrite !Nat2Z.id. subst n m.
  rewrite skipn_app, skipn_all, Nat.sub_diag. simpl. apply firstn_all.
Qed.

Lemma substring_to_negative (s : jsstring) (i : Z) :
  i <= 0 -> JS.substring s 0 i = [].
Proof.
  intros Hi. unfold JS.substring, JS.clamp, JS.length.
  replace (Z.max _ _ - Z.min _ _) with 0 by lia. reflexivity.
Qed.

Lemma substring_from_negative (s : jsstring) (i : Z) :
  i <= 0 -> JS.substring_from s i = s.
Proof.
  intros Hi. unfold JS.substring_from, JS.substring, JS.clamp, JS.length.
  replace (Z.min (Z.max 0 (Z.min i _)) _) with 0 by lia.
  replace (Z.max (Z.max 0 (Z.min i _)) _ - 0)
    with (Z.of_nat (List.length s)) by lia.
  rewrite Nat2Z.id. simpl. apply firstn_all.
Qed.

(** ** Facts about [JS.toString] *)

Lemma size_nat_gt (n : N) : (n < 2 ^ N.of_nat (N.size_nat n))%N.
Proof.
  destruct n as [|p]; [reflexivity|]. simpl N.size_nat.
  induction p as [p IH|p IH|]; simpl Pos.size_nat;
    rewrite ?Nat2N.inj_succ, ?N.pow_succ_r'; lia.
Qed.

Lemma digits_le_lt (fuel : nat) (radix n : N) :
  (0 < radix)%N ->
  Forall (fun d => (d < radix)%N) (JS.digits_le fuel radix n).
Proof.
  intros Hr. revert n. induction fuel as [|f IH]; intros n; simpl.
  - constructor.
  - constructor; [apply N.mod_lt; lia|].
    destruct (n / radix =? 0)%N; [constructor | apply IH].
Qed.

Lemma digits_le_nonempty (fuel : nat) (radix n : N) :
  JS.digits_le (S fuel) radix n <> [].
Proof. simpl. discriminate. Qed.

(** The digits are those of [n]: enough fuel, and they evaluate to it. *)
Lemma digits_le_value (fuel : nat) (radix n : N) :
  (2 <= radix)%N -> (n < 2 ^ N.of_nat fuel)%N ->
  value_le radix (JS.digits_le fuel radix n) = n.
Proof.
  intros Hr. revert n. induction fuel as [|f IH]; intros n Hn; simpl.
  - simpl in Hn. lia.
  - pose proof (N.div_mod n radix ltac:(lia)) as Hdm.
    destruct (N.eqb_spec (n / radix) 0) as [Hz|Hz]; simpl.
    + rewrite Hz in Hdm. lia.
    + rewrite IH; [lia|].
      rewrite Nat2N.inj_succ, N.pow_succ_r' in Hn.
      apply N.Div0.div_lt_upper_bound. nia.
Qed.

Lemma digitValue_digitChar (d : N) :
  (d < 36)%N -> digitValue (JS.digitChar d) = d.
Proof.
  intros Hd. unfold digitValue, JS.digitChar.
  destruct (N.ltb_spec d 10).
  - rewrite N_ascii_embedding by lia.
    destruct (N.ltb_spec (48 + d) 58); lia.
  - rewrite N_ascii_embedding by lia.
    destruct (N.ltb_spec (87 + d) 58); lia.
Qed.

(** A digit character is neither the dot nor the underscore. *)
Lemma digitChar_plain (d : N) :
  (d < 36)%N -> JS.digitChar d <> "."%char /\ JS.digitChar d <> "_"%char.
Proof.
  intros Hd. unfold JS.digitChar.
  assert (Hdot : N_of_ascii "."%char = 46%N) by reflexivity.
  assert (Hund : N_of_ascii "_"%char = 95%N) by reflexivity.
  split; intros Heq; apply (f_equal N_of_ascii) in Heq;
    destruct (N.ltb_spec d 10);
    rewrite N_ascii_embedding in Heq by lia; lia.
Qed.

Lemma parseDigits_map_rev (radix : N) (ds : list N) :
  Forall (fun d => (d < 36)%N) ds ->
  parseDigits radix (map JS.digitChar (rev ds)) = value_le radix ds.
Proof.
  unfold parseDigits, value_le. intros Hds.
  induction Hds as [|d ds Hd _ IH]; [reflexivity|].
  simpl rev. rewrite map_app, fold_left_app, IH. simpl.
  rewrite digitValue_digitChar by exact Hd. lia.
Qed.

(** [parseInt(n.toString(radix), radix)] is [n]. *)
Lemma parseDigits_toString (radix n : N) :
  (2 <= radix <= 36)%N -> parseDigits radix (JS.toString n radix) = n.
Proof.
  intros Hr. unfold JS.toString.
  rewrite parseDigits_map_rev.
  - apply digits_le_value; [lia|]. unfold JS.digit_fuel.
    rewrite Nat2N.inj_succ, N.pow_succ_r'. pose proof (size_nat_gt n). lia.
  - eapply Forall_impl; [|apply (digits_le_lt _ radix n); lia].
    simpl. intros. lia.
Qed.

Lemma toString_inj (radix n m : N) :
  (2 <= radix <= 36)%N ->
  JS.toString n radix = JS.toString m radix -> n = m.
Proof.
  intros Hr Heq. apply (f_equal (parseDigits radix)) in Heq.
  now rewrite !parseDigits_toString in Heq by exact Hr.
Qed.

Lemma toString_nonempty (radix n : N) : JS.toString n radix <> [].
Proof.
  unfold JS.toString, JS.digit_fuel. intros Heq.
  apply map_eq_nil in Heq. apply (f_equal (@rev N)) in Heq.
  rewrite rev_involutive in Heq. simpl in Heq. discriminate.
Qed.

Lemma toString_plain (radix n : N) (ch : ascii) :
  (2 <= radix <= 36)%N -> In ch (JS.toString n radix) ->
  ch <> "."%char /\ ch <> "_"%char.
Proof.
  intros Hr Hin. unfold JS.toString in Hin.
  apply in_map_iff in Hin. destruct Hin as (d & <- & Hd).
  apply in_rev in Hd.
  pose proof (digits_le_lt (JS.digit_fuel n) radix n ltac:(lia)) as Hall.
  rewrite Forall_forall in Hall. specialize (Hall d Hd).
  apply digitChar_plain. lia.
Qed.

(** ** Facts about the prefix transform *)

Lemma cepoch_nonempty (now : N) : cepoch now <> [].
Proof.
  unfold cepoch, JS.reversed. intros Heq.
  apply (f_equal (@rev ascii)) in Heq. rewrite rev_involutive in Heq.
  exact (toString_nonempty _ _ Heq).
Qed.

Lemma cepoch_plain (now : N) :
  ~ In "."%char (cepoch now) /\ ~ In "_"%char (cepoch now).
Proof.
  unfold cepoch, JS.reversed.
  split; intros Hin; apply in_rev in Hin;
    apply toString_plain in Hin; try lia; destruct Hin; congruence.
Qed.

(** The three shapes of a name for the extension split. *)
Lemma prefix_split_nodot (name : jsstring) :
  ~ In "."%char name ->
  prefix_extension name = [] /\ prefix_nameWithoutExt name = name.
Proof.
  intros Hn. unfold prefix_extension, prefix_nameWithoutExt.
  rewrite lastIndexOf_notin by exact Hn. split; reflexivity.
Qed.

Lemma prefix_split_dot0 (r : jsstring) :
  ~ In "."%char r ->
  prefix_extension ("."%char :: r) = [] /\
  prefix_nameWithoutExt ("."%char :: r) = "."%char :: r.
Proof.
  intros Hn. unfold prefix_extension, prefix_nameWithoutExt.
  pose proof (lastIndexOf_app "."%char [] r Hn) as Hlast.
  simpl in Hlast. rewrite Hlast. split; reflexivity.
Qed.

Lemma prefix_split_dot (p r : jsstring) :
  p <> [] -> ~ In "."%char r ->
  prefix_extension (p ++ "."%char :: r) = "."%char :: r /\
  prefix_nameWithoutExt (p ++ "."%char :: r) = p.
Proof.
  intros Hp Hn. unfold prefix_extension, prefix_nameWithoutExt.
  rewrite (lastIndexOf_app "."%char p r Hn).
  assert (Hlen : (0 <? Z.of_nat (List.length p)) = true).
  { apply Z.ltb_lt. destruct p; [congruence | simpl; lia]. }
  rewrite Hlen. split; [apply substring_from_suffix | apply substring_prefix].
Qed.

(** The name falls apart into the two pieces, whatever its shape. *)
Lemma prefix_split_app (name : jsstring) :
  prefix_nameWithoutExt name ++ prefix_extension name = name.
Proof.
  destruct (in_dec ascii_dec "."%char name) as [Hin|Hn].
  - destruct (split_last _ _ Hin) as (p & r & -> & Hr).
    destruct p as [|x p].
    + cbn [app]. destruct (prefix_split_dot0 r Hr) as [-> ->].
      apply app_nil_r.
    + destruct (prefix_split_dot (x :: p) r ltac:(discriminate) Hr)
        as [-> ->]. reflexivity.
  - destruct (prefix_split_nodot name Hn) as [-> ->]. apply app_nil_r.
Qed.

(** A leading segment is stripped when the first underscore is not at
    position 0. *)
Lemma prefix_baseName_strip (name p rest : jsstring) :
  prefix_nameWithoutExt name = p ++ "_"%char :: rest ->
  p <> [] -> ~ In "_"%char p ->
  prefix_baseName name = rest.
Proof.
  intros Hsplit Hp Hn. unfold prefix_baseName. rewrite Hsplit.
  rewrite (indexOf_app "_"%char p rest Hn).
  assert (Hlen : (0 <? Z.of_nat (List.length p)) = true).
  { apply Z.ltb_lt. destruct p; [congruence | simpl; lia]. }
  rewrite Hlen.
  replace (p ++ "_"%char :: rest) with ((p ++ ["_"%char]) ++ rest)
    by (rewrite <- app_assoc; reflexivity).
  replace (Z.of_nat (List.length p) + 1)
    with (Z.of_nat (List.length (p ++ ["_"%char])))
    by (rewrite length_app; simpl; lia).
  apply substring_from_suffix.
Qed.

(** Otherwise nothing is stripped. *)
Lemma prefix_baseName_keep (name : jsstring) :
  (~ In "_"%char (prefix_nameWithoutExt name) \/
   exists rest, prefix_nameWithoutExt name = "_"%char :: rest) ->
  prefix_baseName name = prefix_nameWithoutExt name.
Proof.
  intros [Hn|(rest & Heq)]; unfold prefix_baseName.
  - rewrite indexOf_notin by exact Hn. reflexivity.
  - rewrite Heq. reflexivity.
Qed.

(** What the transform keeps of a name that already carries a prefix [c]
    free of dots and underscores: everything after the first underscore. *)
Lemma strip_prefixed (c x : jsstring) :
  c <> [] -> ~ In "."%char c -> ~ In "_"%char c ->
  prefix_baseName (c ++ "_"%char :: x)
    ++ prefix_extension (c ++ "_"%char :: x) = x.
Proof.
  intros Hc Hdot Hund.
  destruct (in_dec ascii_dec "."%char x) as [Hin|Hn].
  - destruct (split_last _ _ Hin) as (p & r & -> & Hr).
    replace (c ++ "_"%char :: p ++ "."%char :: r)
      with ((c ++ "_"%char :: p) ++ "."%char :: r)
      by (rewrite <- app_assoc; reflexivity).
    destruct (prefix_split_dot (c ++ "_"%char :: p) r) as [Hext Hnwe];
      [destruct c; [congruence | discriminate] | exact Hr |].
    rewrite Hext, (prefix_baseName_strip _ c p Hnwe Hc Hund). reflexivity.
  - assert (Hall : ~ In "."%char (c ++ "_"%char :: x)).
    { intros H. apply in_app_or in H. destruct H as [H|[H|H]];
        [exact (Hdot H) | discriminate | exact (Hn H)]. }
    destruct (prefix_split_nodot _ Hall) as [Hext Hnwe].
    rewrite Hext, (prefix_baseName_strip _ c x Hnwe Hc Hund).
    apply app_nil_r.
Qed.

(** Applying the transform to its own output replaces the prefix and keeps
    the rest. *)
Lemma processFilenameWithPrefix_again (now now' : N) (name : jsstring) :
  processFilenameWithPrefix now'
      (processFilenameWithPrefix now name true) true
  = processFilenameWithPrefix now' name true.
Proof.
  unfold processFilenameWithPrefix. simpl negb. cbv iota.
  assert (Hs : forall t, str "_" ++ t = "_"%char :: t) by reflexivity.
  rewrite !Hs.
  destruct (cepoch_plain now) as [Hdot Hund].
  pose proof (strip_prefixed (cepoch now)
                (prefix_baseName name ++ prefix_extension name)
                (cepoch_nonempty now) Hdot Hund) as Hstrip.
  do 2 f_equal. exact Hstrip.
Qed.

(** ** The prefix transform: claims *)

(** C2, as amended.  When the first underscore of the base part (the name
    without its extension) is at a position greater than 0, the transform
    with [addPrefix = true] drops exactly the segment up to and including
    that first underscore and puts the new cepoch prefix in its place;
    applying it again, at any time, leaves a single prefix before the same
    remainder. *)
Theorem prefix_strips_first_segment
    (now : N) (name p rest : jsstring) :
  prefix_nameWithoutExt name = p ++ "_"%char :: rest ->
  p <> [] ->
  ~ In "_"%char p ->
  processFilenameWithPrefix now name true
    = cepoch now ++ "_"%char :: rest ++ prefix_extension name
  /\ forall now',
       processFilenameWithPrefix now'
           (processFilenameWithPrefix now name true) true
       = cepoch now' ++ "_"%char :: rest ++ prefix_extension name.
Proof.
  intros Hsplit Hp Hn.
  assert (Hone : forall t,
             processFilenameWithPrefix t name true
             = cepoch t ++ "_"%char :: rest ++ prefix_extension name).
  { intros t. unfold processFilenameWithPrefix. simpl negb. cbv iota.
    rewrite (prefix_baseName_strip name p rest Hsplit Hp Hn). reflexivity. }
  split; [apply Hone|].
  intros now'. rewrite processFilenameWithPrefix_again. apply Hone.
Qed.

Lemma prefix_strips_first_segment_witness :
  let name := str "old_note.md" in
  prefix_nameWithoutExt name = str "old" ++ "_"%char :: str "note" /\
  str "old" <> [] /\
  ~ In "_"%char (str "old") /\
  processFilenameWithPrefix 1700000000123 name true = str "8ew44s_note.md" /\
  processFilenameWithPrefix 1700000061000
      (processFilenameWithPrefix 1700000000123 name true) true
    = str "xfw44s_note.md".
Proof.
  assert (H1 : prefix_nameWithoutExt (str "old_note.md")
               = str "old" ++ "_"%char :: str "note") by reflexivity.
  assert (H2 : str "old" <> []) by discriminate.
  assert (H3 : ~ In "_"%char (str "old")).
  { simpl. intros [H|[H|[H|[]]]]; discriminate. }
  destruct (prefix_strips_first_segment 1700000000123 _ _ _ H1 H2 H3)
    as [Hfirst Hagain].
  exact (conj H1 (conj H2 (conj H3
           (conj Hfirst (Hagain 1700000061000%N))))).
Defined.

(** C2, as stated, fails on a name that starts with an underscore and has
    another one further on: the base part of [_a_b.md] has an underscore
    at position 2, yet nothing is removed, because the first underscore is
    at position 0. *)
Lemma prefix_leading_underscore_kept :
  let name := str "_a_b.md" in
  let now := 1700000000123%N in
  prefix_nameWithoutExt name = str "_a_b" /\
  nth_error (prefix_nameWithoutExt name) 2 = Some "_"%char /\
  prefix_nameWithoutExt name = [] ++ "_"%char :: str "a_b" /\
  processFilenameWithPrefix now name true = str "8ew44s__a_b.md" /\
  processFilenameWithPrefix now name true
    <> cepoch now ++ "_"%char :: str "a_b" ++ prefix_extension name.
Proof.
  do 4 (split; [reflexivity|]). vm_compute. discriminate.
Qed.

(** C3.  At a fixed second since the epoch, applying the transform with
    [addPrefix = true] twice gives what applying it once gives. *)
Theorem prefix_idempotent_same_second (now1 now2 : N) (name : jsstring) :
  (now1 / 1000 = now2 / 1000)%N ->
  processFilenameWithPrefix now2
      (processFilenameWithPrefix now1 name true) true
  = processFilenameWithPrefix now1 name true.
Proof.
  intros Hsec. rewrite processFilenameWithPrefix_again.
  unfold processFilenameWithPrefix, cepoch. now rewrite Hsec.
Qed.

Lemma prefix_idempotent_same_second_witness :
  (1700000000123 / 1000 = 1700000000999 / 1000)%N /\
  processFilenameWithPrefix 1700000000999
      (processFilenameWithPrefix 1700000000123 (str "a_b_c.tar.gz") true) true
  = processFilenameWithPrefix 1700000000123 (str "a_b_c.tar.gz") true.
Proof.
  split; [reflexivity|].
  apply (prefix_idempotent_same_second 1700000000123 1700000000999).
  reflexivity.
Defined.

(** C4.  With [addPrefix = true] the result is the whole seconds since the
    epoch, written in base 36 (a digit string that reads back as that
    number), reversed, then an underscore, then the base name and the
    extension; and it depends on the clock through the whole seconds
    only. *)
Theorem prefix_is_reversed_base36_seconds
    (now now' : N) (name : jsstring) :
  (now' / 1000 = now / 1000)%N ->
  processFilenameWithPrefix now name true
    = rev (JS.toString (now / 1000) 36) ++ "_"%char
        :: prefix_baseName name ++ prefix_extension name
  /\ parseDigits 36 (JS.toString (now / 1000) 36) = (now / 1000)%N
  /\ processFilenameWithPrefix now' name true
     = processFilenameWithPrefix now name true.
Proof.
  intros Hsec. split; [reflexivity|]. split.
  - apply parseDigits_toString. lia.
  - unfold processFilenameWithPrefix, cepoch. now rewrite Hsec.
Qed.

Lemma prefix_is_reversed_base36_seconds_witness :
  (1700000000999 / 1000 = 1700000000123 / 1000)%N /\
  processFilenameWithPrefix 1700000000123 (str "note.md") true
    = rev (str "s44we8") ++ str "_note.md" /\
  parseDigits 36 (str "s44we8") = 1700000000%N /\
  processFilenameWithPrefix 1700000000999 (str "note.md") true
    = processFilenameWithPrefix 1700000000123 (str "note.md") true.
Proof.
  split; [reflexivity|].
  apply (prefix_is_reversed_base36_seconds 1700000000123 1700000000999).
  reflexivity.
Defined.

(** ** Facts about the conflict-resolution parse *)

Lemma or_else_nil_l (b : jsstring) : JS.or_else [] b = b.
Proof. reflexivity. Qed.

Lemma or_else_nil_r (a : jsstring) : JS.or_else a [] = a.
Proof. destruct a; reflexivity. Qed.

Lemma dup_parse_nodot (name : jsstring) :
  ~ In "."%char name ->
  dup_baseName name = name /\ dup_extension name = name.
Proof.
  intros Hn. unfold dup_baseName, dup_extension.
  rewrite lastIndexOf_notin by exact Hn.
  rewrite substring_to_negative, substring_from_negative by lia.
  split; [apply or_else_nil_l | apply or_else_nil_r].
Qed.

Lemma dup_parse_dot0 (r : jsstring) :
  ~ In "."%char r ->
  dup_baseName ("."%char :: r) = "."%char :: r /\
  dup_extension ("."%char :: r) = "."%char :: r.
Proof.
  intros Hn. unfold dup_baseName, dup_extension.
  pose proof (lastIndexOf_app "."%char [] r Hn) as Hlast.
  simpl in Hlast. rewrite Hlast.
  rewrite substring_to_negative, substring_from_negative by lia.
  split; reflexivity.
Qed.

Lemma dup_parse_dot (p r : jsstring) :
  p <> [] -> ~ In "."%char r ->
  dup_baseName (p ++ "."%char :: r) = p /\
  dup_extension (p ++ "."%char :: r) = "."%char :: r.
Proof.
  intros Hp Hn. unfold dup_baseName, dup_extension.
  rewrite (lastIndexOf_app "."%char p r Hn).
  rewrite substring_prefix, substring_from_suffix.
  split; [destruct p; [congruence | reflexivity] | reflexivity].
Qed.

(** ** Facts about the loop *)

Section Loop.

Variable present : jsstring -> bool.
Variables folder base ext : jsstring.

Lemma numbered_inj (j k : N) :
  numberedPath folder base ext j = numberedPath folder base ext k -> j = k.
Proof.
  unfold numberedPath, newPathIn, numberedName. intros Heq.
  destruct (JS.truthy folder);
    repeat apply app_inv_head in Heq;
    apply app_inv_tail in Heq;
    apply (toString_inj 10); solve [lia | exact Heq].
Qed.

(** A free path ends the loop at once. *)
Lemma resolveLoop_free (fuel : nat) (newPath : jsstring) (counter : N) :
  present newPath = false ->
  resolveLoop (S fuel) present folder base ext newPath counter
  = Some newPath.
Proof. intros Hfree. simpl. now rewrite Hfree. Qed.

(** From an occupied path the loop walks the numbered names upwards and
    stops at the first free one. *)
Lemma resolveLoop_run (n : nat) :
  forall (fuel : nat) (counter : N) (newPath : jsstring),
    present newPath = true ->
    (forall i, (i < n)%nat ->
       present (numberedPath folder base ext (counter + N.of_nat i)) = true) ->
    present (numberedPath folder base ext (counter + N.of_nat n)) = false ->
    (n + 2 <= fuel)%nat ->
    resolveLoop fuel present folder base ext newPath counter
    = Some (numberedPath folder base ext (counter + N.of_nat n)).
Proof.
  induction n as [|n IH]; intros fuel counter newPath Hocc Hbelow Hfree Hfuel.
  - destruct fuel as [|[|fuel]]; try lia.
    cbn [resolveLoop]. rewrite Hocc.
    replace (counter + N.of_nat 0)%N with counter in * by lia.
    fold (numberedPath folder base ext counter). now rewrite Hfree.
  - destruct fuel as [|fuel]; try lia.
    cbn [resolveLoop]. rewrite Hocc.
    fold (numberedPath folder base ext counter).
    replace (counter + N.of_nat (S n))%N
      with (counter + 1 + N.of_nat n)%N in * by lia.
    apply IH; try lia.
    + specialize (Hbelow 0%nat ltac:(lia)).
      now replace (counter + N.of_nat 0)%N with counter in Hbelow by lia.
    + intros i Hi. specialize (Hbelow (S i) ltac:(lia)).
      now replace (counter + N.of_nat (S i))%N
        with (counter + 1 + N.of_nat i)%N in Hbelow by lia.
    + exact Hfree.
Qed.

(** Among [n + 1] numbered names, one is missing from any [n] occupied
    paths. *)
Lemma numbered_not_all_occupied (occupied : list jsstring) :
  (forall p, present p = true -> In p occupied) ->
  ~ (forall i, (i < S (List.length occupied))%nat ->
       present (numberedPath folder base ext (1 + N.of_nat i)) = true).
Proof.
  intros Hfin Hall.
  set (tried := map (fun i => numberedPath folder base ext (1 + N.of_nat i))
                  (seq 0 (S (List.length occupied)))).
  assert (Hnodup : NoDup tried).
  { apply Injective_map_NoDup; [|apply seq_NoDup].
    intros i j Heq. apply numbered_inj in Heq. lia. }
  assert (Hincl : incl tried occupied).
  { intros p Hp. apply in_map_iff in Hp. destruct Hp as (i & <- & Hi).
    apply in_seq in Hi. apply Hfin, Hall. lia. }
  pose proof (NoDup_incl_length Hnodup Hincl) as Hlen.
  unfold tried in Hlen. rewrite length_map, length_seq in Hlen. lia.
Qed.

End Loop.

(** The least index at which a test fails, if it fails below [m]. *)
Lemma least_false (P : nat -> bool) (m : nat) :
  (forall i, (i < m)%nat -> P i = true) \/
  (exists i, (i < m)%nat /\ P i = false /\
             forall j, (j < i)%nat -> P j = true).
Proof.
  induction m as [|m [IH|IH]].
  - left. intros i Hi. lia.
  - destruct (P m) eqn:Hm.
    + left. intros i Hi.
      destruct (Nat.eq_dec i m) as [->|Hne]; [exact Hm | apply IH; lia].
    + right. exists m. repeat split; [lia | exact Hm | exact IH].
  - right. destruct IH as (i & Hi & Hf & Hb).
    exists i. repeat split; [lia | exact Hf | exact Hb].
Qed.

(** ** Conflict resolution: claims *)

(** X20.  For every target folder, desired file name and finite set of
    occupied paths, the loop of [duplicateFileToFolder] ends (two more
    iterations than there are occupied paths always suffice) and returns a
    path the existence check rejects: the first free one of the paths it
    tries, which are the desired path and then the paths its body builds
    for the counter values 1, 2, 3, ... *)
Theorem resolvePath_first_free
    (present : jsstring -> bool) (occupied : list jsstring)
    (targetFolder fileName : jsstring) (fuel : nat) :
  (forall p, present p = true -> In p occupied) ->
  (List.length occupied + 2 <= fuel)%nat ->
  exists k : N,
    (k <= N.of_nat (List.length occupied) + 1)%N /\
    resolvePath fuel present targetFolder fileName
      = Some (candidate targetFolder fileName k) /\
    present (candidate targetFolder fileName k) = false /\
    forall j, (j < k)%N -> present (candidate targetFolder fileName j) = true.
Proof.
  intros Hfin Hfuel. unfold resolvePath.
  destruct (present (newPathIn targetFolder fileName)) eqn:Hfirst.
  - pose proof (numbered_not_all_occupied present targetFolder
                  (dup_baseName fileName) (dup_extension fileName)
                  occupied Hfin) as Hsome.
    cbv zeta in Hsome.
    destruct (least_false
                (fun i => present (candidate targetFolder fileName
                                     (1 + N.of_nat i)))
                (S (List.length occupied))) as [Hall|(i & Hi & Hfree & Hbelow)].
    + exfalso. apply Hsome. intros i Hi. specialize (Hall i Hi).
      unfold candidate in Hall.
      destruct (N.eqb_spec (1 + N.of_nat i) 0); [lia | exact Hall].
    + exists (1 + N.of_nat i)%N. split; [lia|]. split; [|split].
      * unfold candidate at 1.
        destruct (N.eqb_spec (1 + N.of_nat i) 0) as [|_]; [lia|].
        apply (resolveLoop_run present targetFolder
                 (dup_baseName fileName) (dup_extension fileName) i);
          try lia; try exact Hfirst.
        -- intros j Hj. specialize (Hbelow j Hj). unfold candidate in Hbelow.
           destruct (N.eqb_spec (1 + N.of_nat j) 0); [lia | exact Hbelow].
        -- unfold candidate in Hfree.
           destruct (N.eqb_spec (1 + N.of_nat i) 0); [lia | exact Hfree].
      * exact Hfree.
      * intros j Hj. destruct (N.eq_dec j 0) as [->|Hnz].
        -- exact Hfirst.
        -- specialize (Hbelow (N.to_nat j - 1)%nat ltac:(lia)).
           now replace (1 + N.of_nat (N.to_nat j - 1))%N with j in Hbelow
             by lia.
  - exists 0%N. split; [lia|]. split; [|split].
    + destruct fuel as [|fuel]; [lia|].
      apply resolveLoop_free. exact Hfirst.
    + exact Hfirst.
    + intros j Hj. lia.
Qed.

Lemma resolvePath_first_free_witness :
  let occupied := [str "docs/note.md"; str "docs/note 1.md"] in
  (forall p, occupiedBy occupied p = true -> In p occupied) /\
  (List.length occupied + 2 <= 4)%nat /\
  exists k : N,
    (k <= N.of_nat (List.length occupied) + 1)%N /\
    resolvePath 4 (occupiedBy occupied) (str "docs") (str "note.md")
      = Some (candidate (str "docs") (str "note.md") k) /\
    occupiedBy occupied (candidate (str "docs") (str "note.md") k) = false /\
    forall j, (j < k)%N ->
      occupiedBy occupied (candidate (str "docs") (str "note.md") j) = true.
Proof.
  intros occupied.
  assert (Hfin : forall p, occupiedBy occupied p = true -> In p occupied).
  { intros p. unfold occupiedBy.
    destruct (in_dec (list_eq_dec ascii_dec) p occupied);
      [trivial | discriminate]. }
  assert (Hfuel : (List.length occupied + 2 <= 4)%nat) by (simpl; lia).
  exact (conj Hfin (conj Hfuel
           (resolvePath_first_free (occupiedBy occupied) occupied
              (str "docs") (str "note.md") 4 Hfin Hfuel))).
Defined.

(** C1: what the loop does for a name without a dot.  With [README] and
    [README 1README] taken in [docs], it returns [docs/README 2README]:
    the paths it tries are [README], [README 1README], [README 2README],
    not [README], [README 1], [README 2], although [docs/README 1] is
    free.  It still ends, and on a path the existence check rejects. *)
Theorem resolvePath_no_dot_numbering :
  let present :=
    occupiedBy [str "docs/README"; str "docs/README 1README"] in
  candidate (str "docs") (str "README") 0 = str "docs/README" /\
  candidate (str "docs") (str "README") 1 = str "docs/README 1README" /\
  candidate (str "docs") (str "README") 2 = str "docs/README 2README" /\
  resolvePath 3 present (str "docs") (str "README")
    = Some (str "docs/README 2README") /\
  present (str "docs/README 2README") = false /\
  present (str "docs/README 1") = false /\
  resolvePath 3 present (str "docs") (str "README")
    <> Some (str "docs/README 1").
Proof.
  intros present.
  do 6 (split; [reflexivity|]).
  vm_compute. discriminate.
Qed.

Example resolvePath_note :
  resolvePath 4 (occupiedBy [str "docs/note.md"; str "docs/note 1.md"])
    (str "docs") (str "note.md")
  = Some (str "docs/note 2.md").
Proof. reflexivity. Qed.

(** C6: what the code does on a name without a dot.  [substring(-1)] is
    the whole string, so the parse takes the whole name for the extension
    too, and the first numbered alternative of [README] in [docs] is
    [docs/README 1README], not [docs/README 1]. *)
Theorem dup_parse_no_dot_repeats_name :
  dup_baseName (str "README") = str "README" /\
  dup_extension (str "README") = str "README" /\
  dup_extension (str "README") <> [] /\
  resolvePath 2 (occupiedBy [str "docs/README"]) (str "docs") (str "README")
    = Some (str "docs/README 1README") /\
  occupiedBy [str "docs/README"] (str "docs/README 1") = false.
Proof.
  do 2 (split; [reflexivity|]). split; [discriminate|].
  split; reflexivity.
Qed.

(** The same for every name without a dot. *)
Lemma dup_numbered_no_dot (name : jsstring) (k : N) :
  ~ In "."%char name ->
  numberedName (dup_baseName name) k (dup_extension name)
  = name ++ str " " ++ JS.numberToString k ++ name.
Proof.
  intros Hn. destruct (dup_parse_nodot name Hn) as [-> ->]. reflexivity.
Qed.

(** C9.  When the only dot of a file name is its first character, the
    parse gives the whole name both as base name and as extension; the
    first numbered alternative is the name, [" 1"], and the name again,
    and that is the path the loop returns when the plain name collides
    and this one does not. *)
Theorem dup_parse_leading_dot
    (present : jsstring -> bool) (targetFolder r : jsstring) (fuel : nat) :
  ~ In "."%char r ->
  let name := "."%char :: r in
  dup_baseName name = name /\
  dup_extension name = name /\
  candidate targetFolder name 1
    = newPathIn targetFolder (name ++ str " 1" ++ name) /\
  (present (newPathIn targetFolder name) = true ->
   present (newPathIn targetFolder (name ++ str " 1" ++ name)) = false ->
   resolvePath (S (S fuel)) present targetFolder name
     = Some (newPathIn targetFolder (name ++ str " 1" ++ name))).
Proof.
  intros Hn name. destruct (dup_parse_dot0 r Hn) as [Hbase Hext].
  fold name in Hbase, Hext.
  assert (Hcand : candidate targetFolder name 1
                  = newPathIn targetFolder (name ++ str " 1" ++ name)).
  { unfold candidate. simpl N.eqb. cbv iota. rewrite Hbase, Hext.
    reflexivity. }
  repeat (split; [assumption|]).
  intros Hocc Hfree. unfold resolvePath. cbn [resolveLoop].
  rewrite Hocc, Hbase, Hext.
  change (numberedName name 1 name) with (name ++ str " 1" ++ name).
  now rewrite Hfree.
Qed.

Lemma dup_parse_leading_dot_witness :
  let present := occupiedBy [str ".gitignore"] in
  ~ In "."%char (str "gitignore") /\
  dup_baseName (str ".gitignore") = str ".gitignore" /\
  dup_extension (str ".gitignore") = str ".gitignore" /\
  candidate [] (str ".gitignore") 1 = str ".gitignore 1.gitignore" /\
  present (str ".gitignore") = true /\
  present (str ".gitignore 1.gitignore") = false /\
  resolvePath 2 present [] (str ".gitignore")
    = Some (str ".gitignore 1.gitignore").
Proof.
  intros present.
  assert (Hn : ~ In "."%char (str "gitignore")).
  { simpl. intros H.
    repeat (destruct H as [H|H]; [discriminate|]). exact H. }
  destruct (dup_parse_leading_dot present [] (str "gitignore") 0 Hn)
    as (Hbase & Hext & Hcand & Hrun).
  assert (Hocc : present (str ".gitignore") = true) by reflexivity.
  assert (Hfree : present (str ".gitignore 1.gitignore") = false)
    by reflexivity.
  exact (conj Hn (conj Hbase (conj Hext (conj Hcand
           (conj Hocc (conj Hfree (Hrun Hocc Hfree))))))).
Defined.

(** ** Running the commands *)

Section Runs.

Context {World : Type} `{Host World}.

Lemma logged_logged (s : State World) (e1 e2 : list Event) :
  logged (logged s e1) e2 = logged s (e1 ++ e2).
Proof. unfold logged. simpl. now rewrite app_assoc. Qed.

Lemma after_logged (s : State World) (w : World) (e1 e2 : list Event) :
  logged (after s w e1) e2 = after s w (e1 ++ e2).
Proof. unfold logged, after. simpl. now rewrite app_assoc. Qed.

Lemma emit_run (ev : Event) (s : State World) :
  emit ev s = (Returned tt, logged s [ev]).
Proof. reflexivity. Qed.

Lemma call_ok {A} (ev : Event) (op : World -> Result A * World)
    (s : State World) (a : A) (w : World) :
  op (world s) = (Ok a, w) -> call ev op s = (Returned a, after s w [ev]).
Proof. intros Hop. unfold call. now rewrite Hop. Qed.

Lemma call_err {A} (ev : Event) (op : World -> Result A * World)
    (s : State World) (e : Error) (w : World) :
  op (world s) = (Err e, w) -> call ev op s = (Thrown e, after s w [ev]).
Proof. intros Hop. unfold call. now rewrite Hop. Qed.

(** A host call returns or throws. *)
Lemma call_ends {A} (ev : Event) (op : World -> Result A * World)
    (s : State World) :
  fst (call ev op s) <> Diverged.
Proof. unfold call. destruct (op (world s)) as [[a|e] w]; discriminate. Qed.

(** [ensureFolderExists] does nothing, or makes one [createFolder] call. *)
Lemma ensureFolderExists_cases (folderPath : jsstring) (s : State World) :
  ensureFolderExists folderPath s = (Returned tt, s) \/
  (folderPath <> [] /\
   getAbstractFileByPath (world s) folderPath = None /\
   ensureFolderExists folderPath s
   = call (CreateFolder folderPath) (createFolder folderPath) s).
Proof.
  unfold ensureFolderExists. destruct folderPath as [|x t]; [now left|].
  unfold bind, ask. cbn [negb JS.truthy]. cbv beta iota.
  destruct (getAbstractFileByPath (world s) (x :: t)); [now left|].
  right. repeat split. discriminate.
Qed.

Lemma ensureFolderExists_root (s : State World) :
  ensureFolderExists [] s = (Returned tt, s).
Proof. reflexivity. Qed.

Lemma ensureFolderExists_ends (folderPath : jsstring) (s : State World) :
  fst (ensureFolderExists folderPath s) <> Diverged.
Proof.
  destruct (ensureFolderExists_cases folderPath s) as [->|(_ & _ & ->)];
    [discriminate | apply call_ends].
Qed.

(** What a successful [ensureFolderExists] leaves behind: the state it
    started from, or that state after one folder creation. *)
Lemma ensureFolderExists_returned (folderPath : jsstring)
    (s s1 : State World) :
  ensureFolderExists folderPath s = (Returned tt, s1) ->
  s1 = s \/
  s1 = after s (snd (createFolder folderPath (world s)))
         [CreateFolder folderPath].
Proof.
  intros Hrun.
  destruct (ensureFolderExists_cases folderPath s) as [Heq|(_ & _ & Heq)];
    rewrite Heq in Hrun.
  - left. congruence.
  - right. unfold call in Hrun. unfold after.
    destruct (createFolder folderPath (world s)) as [[[]|e] w];
      simpl; congruence.
Qed.

(** The [try] block of the move command once the folder is there. *)
Lemma move_try_after_folder (f : TAbstractFile) (targetFolder : jsstring)
    (addPrefix : bool) (s s1 : State World) :
  ensureFolderExists targetFolder s = (Returned tt, s1) ->
  move_try f targetFolder addPrefix s
  = let newPath :=
      newPathIn targetFolder
        (processFilenameWithPrefix (dateNow (world s1)) (name f) addPrefix) in
    match getAbstractFileByPath (world s1) newPath with
    | Some _ =>
        (Returned tt,
         logged s1 [Notice (str "File already exists at " ++ newPath)])
    | None =>
        bind (call (RenameFile f newPath) (renameFile f newPath))
          (fun renamed =>
             emit (Notice
                     (doneNotice (str "Moved") (name renamed) targetFolder)))
          s1
    end.
Proof.
  intros Hfolder. unfold move_try, bind at 1. rewrite Hfolder.
  unfold bind at 1, ask. unfold bind at 1. cbv zeta.
  destruct (getAbstractFileByPath (world s1) _); reflexivity.
Qed.

Lemma move_try_folder_throws (f : TAbstractFile) (targetFolder : jsstring)
    (addPrefix : bool) (s s1 : State World) (e : Error) :
  ensureFolderExists targetFolder s = (Thrown e, s1) ->
  move_try f targetFolder addPrefix s = (Thrown e, s1).
Proof. intros Hfolder. unfold move_try, bind at 1. now rewrite Hfolder. Qed.

Lemma move_try_ends (f : TAbstractFile) (targetFolder : jsstring)
    (addPrefix : bool) (s : State World) :
  fst (move_try f targetFolder addPrefix s) <> Diverged.
Proof.
  destruct (ensureFolderExists targetFolder s) as [[[]|e|] s1] eqn:Hfolder.
  - rewrite (move_try_after_folder _ _ _ _ _ Hfolder). cbv zeta.
    destruct (getAbstractFileByPath (world s1) _); [discriminate|].
    unfold bind, call.
    destruct (renameFile f _ (world s1)) as [[renamed|e] w]; discriminate.
  - rewrite (move_try_folder_throws _ _ _ _ _ _ Hfolder). discriminate.
  - exfalso. apply (ensureFolderExists_ends targetFolder s).
    now rewrite Hfolder.
Qed.

(** The move command behind its two guards. *)
Lemma move_guarded (f : TAbstractFile) (targetFolder : jsstring)
    (addPrefix : bool) (s : State World) :
  getActiveFile (world s) = Some f -> isTFile f = true ->
  moveCurrentFileToFolder targetFolder addPrefix s
  = tryCatch (move_try f targetFolder addPrefix) move_catch s.
Proof.
  intros Hactive Hfile. unfold moveCurrentFileToFolder, bind, ask.
  now rewrite Hactive, Hfile.
Qed.

Lemma duplicate_guarded (fuel : nat) (f : TAbstractFile)
    (targetFolder : jsstring) (addPrefix : bool) (s : State World) :
  getActiveFile (world s) = Some f -> isTFile f = true ->
  duplicateFileToFolder fuel targetFolder addPrefix s
  = tryCatch (duplicate_try fuel f targetFolder addPrefix) duplicate_catch s.
Proof.
  intros Hactive Hfile. unfold duplicateFileToFolder, bind, ask.
  now rewrite Hactive, Hfile.
Qed.

Lemma tryCatch_thrown {A} (body : M World A) (handler : Error -> M World A)
    (s s' : State World) (e : Error) :
  body s = (Thrown e, s') -> tryCatch body handler s = handler e s'.
Proof. intros Hbody. unfold tryCatch. now rewrite Hbody. Qed.

Lemma tryCatch_returned {A} (body : M World A) (handler : Error -> M World A)
    (s s' : State World) (a : A) :
  body s = (Returned a, s') -> tryCatch body handler s = (Returned a, s').
Proof. intros Hbody. unfold tryCatch. now rewrite Hbody. Qed.

Lemma move_catch_run (e : Error) (s : State World) :
  move_catch e s
  = (Returned tt,
     logged s [ConsoleError (str "Error moving file:") e;
               Notice (str "Error moving file: " ++ message e)]).
Proof.
  unfold move_catch, bind. rewrite !emit_run, logged_logged. reflexivity.
Qed.

Lemma duplicate_catch_run (e : Error) (s : State World) :
  duplicate_catch e s
  = (Returned tt,
     logged s [ConsoleError (str "Error duplicating file:") e;
               Notice (str "Error duplicating file: " ++ message e)]).
Proof.
  unfold duplicate_catch, bind. rewrite !emit_run, logged_logged. reflexivity.
Qed.

(** The [try] block of the duplicate command once the folder is there and
    the content is read. *)
Lemma duplicate_try_after_read (fuel : nat) (f : TAbstractFile)
    (targetFolder : jsstring) (addPrefix : bool) (s s1 : State World)
    (content : jsstring) (w2 : World) :
  ensureFolderExists targetFolder s = (Returned tt, s1) ->
  read f (world s1) = (Ok content, w2) ->
  duplicate_try fuel f targetFolder addPrefix s
  = let s2 := after s1 w2 [Read f] in
    match resolvePath fuel (fun p => nonNull (getAbstractFileByPath w2 p))
            targetFolder
            (processFilenameWithPrefix (dateNow w2) (name f) addPrefix) with
    | None => (Diverged, s2)
    | Some newPath =>
        bind (call (Create newPath content) (create newPath content))
          (fun newFile =>
             bind (call (OpenFile newFile) (openFile newFile))
               (fun _ =>
                  emit (Notice
                          (doneNotice (str "Duplicated") (name f)
                             targetFolder)))) s2
    end.
Proof.
  intros Hfolder Hread. unfold duplicate_try, bind at 1. rewrite Hfolder.
  unfold bind at 1. rewrite (call_ok _ _ _ _ _ Hread).
  unfold bind at 1, ask. unfold bind at 1. unfold bind at 1, ofOption.
  cbv zeta. cbn [world after].
  destruct (resolvePath fuel _ targetFolder _); reflexivity.
Qed.

Lemma duplicate_try_folder_throws (fuel : nat) (f : TAbstractFile)
    (targetFolder : jsstring) (addPrefix : bool) (s s1 : State World)
    (e : Error) :
  ensureFolderExists targetFolder s = (Thrown e, s1) ->
  duplicate_try fuel f targetFolder addPrefix s = (Thrown e, s1).
Proof.
  intros Hfolder. unfold duplicate_try, bind at 1. now rewrite Hfolder.
Qed.

Lemma duplicate_try_read_throws (fuel : nat) (f : TAbstractFile)
    (targetFolder : jsstring) (addPrefix : bool) (s s1 : State World)
    (e : Error) (w2 : World) :
  ensureFolderExists targetFolder s = (Returned tt, s1) ->
  read f (world s1) = (Err e, w2) ->
  duplicate_try fuel f targetFolder addPrefix s
  = (Thrown e, after s1 w2 [Read f]).
Proof.
  intros Hfolder Hread. unfold duplicate_try, bind at 1. rewrite Hfolder.
  unfold bind at 1. now rewrite (call_err _ _ _ _ _ Hread).
Qed.

(** A host call that rejects inside a [try] block makes the block throw
    what the host threw. *)
Lemma ensureFolderExists_throws (folderPath : jsstring) (s : State World)
    (e : Error) (w : World) :
  folderPath <> [] ->
  getAbstractFileByPath (world s) folderPath = None ->
  createFolder folderPath (world s) = (Err e, w) ->
  ensureFolderExists folderPath s
  = (Thrown e, after s w [CreateFolder folderPath]).
Proof.
  intros Hne Hnone Hcreate. unfold ensureFolderExists.
  destruct folderPath as [|x t]; [congruence|].
  unfold bind, ask. cbn [negb JS.truthy]. cbv beta iota.
  rewrite Hnone. now apply call_err.
Qed.

Lemma move_try_rename_throws (f : TAbstractFile) (targetFolder : jsstring)
    (addPrefix : bool) (s s1 : State World) (e : Error) (w : World) :
  ensureFolderExists targetFolder s = (Returned tt, s1) ->
  let newPath :=
    newPathIn targetFolder
      (processFilenameWithPrefix (dateNow (world s1)) (name f) addPrefix) in
  getAbstractFileByPath (world s1) newPath = None ->
  renameFile f newPath (world s1) = (Err e, w) ->
  move_try f targetFolder addPrefix s
  = (Thrown e, after s1 w [RenameFile f newPath]).
Proof.
  intros Hfolder newPath Hfree Hrename.
  rewrite (move_try_after_folder _ _ _ _ _ Hfolder). cbv zeta.
  fold newPath. rewrite Hfree. unfold bind.
  now rewrite (call_err _ _ _ _ _ Hrename).
Qed.

Lemma duplicate_try_create_throws (fuel : nat) (f : TAbstractFile)
    (targetFolder : jsstring) (addPrefix : bool) (s s1 : State World)
    (content newPath : jsstring) (e : Error) (w2 w3 : World) :
  ensureFolderExists targetFolder s = (Returned tt, s1) ->
  read f (world s1) = (Ok content, w2) ->
  resolvePath fuel (fun p => nonNull (getAbstractFileByPath w2 p))
    targetFolder (processFilenameWithPrefix (dateNow w2) (name f) addPrefix)
    = Some newPath ->
  create newPath content w2 = (Err e, w3) ->
  duplicate_try fuel f targetFolder addPrefix s
  = (Thrown e, after s1 w3 [Read f; Create newPath content]).
Proof.
  intros Hfolder Hread Hpath Hcreate.
  rewrite (duplicate_try_after_read _ _ _ _ _ _ _ _ Hfolder Hread).
  cbv zeta. rewrite Hpath. unfold bind.
  rewrite (call_err _ _ (after s1 w2 [Read f]) e w3 Hcreate).
  unfold after. cbn [trace]. now rewrite <- app_assoc.
Qed.

(** The commands never let an exception out, and the move command always
    returns. *)
Lemma move_returns (targetFolder : jsstring) (addPrefix : bool)
    (s : State World) :
  fst (moveCurrentFileToFolder targetFolder addPrefix s) = Returned tt.
Proof.
  unfold moveCurrentFileToFolder, bind, ask.
  destruct (getActiveFile (world s)) as [f|]; [|reflexivity].
  destruct (isTFile f); [|reflexivity]. cbn [negb].
  unfold tryCatch.
  pose proof (move_try_ends f targetFolder addPrefix s) as Hends.
  destruct (move_try f targetFolder addPrefix s) as [[[]|e|] s'].
  - reflexivity.
  - now rewrite move_catch_run.
  - now elim Hends.
Qed.

(** The [try] block of the duplicate command can only fail to end in its
    loop. *)
Lemma duplicate_try_diverges (fuel : nat) (f : TAbstractFile)
    (targetFolder : jsstring) (addPrefix : bool) (s : State World) :
  fst (duplicate_try fuel f targetFolder addPrefix s) = Diverged ->
  exists w fileName,
    resolvePath fuel (fun p => nonNull (getAbstractFileByPath w p))
      targetFolder fileName = None.
Proof.
  destruct (ensureFolderExists targetFolder s) as [[[]|e|] s1] eqn:Hfolder.
  - destruct (read f (world s1)) as [[content|e] w2] eqn:Hread.
    + rewrite (duplicate_try_after_read _ _ _ _ _ _ _ _ Hfolder Hread).
      cbv zeta.
      destruct (resolvePath fuel _ targetFolder _) as [newPath|] eqn:Hpath.
      * unfold bind, call. cbn [world after].
        destruct (create newPath content w2) as [[newFile|e] w3];
          [|discriminate].
        cbn [world]. destruct (openFile newFile w3) as [[[]|e] w4];
          discriminate.
      * intros _. eauto.
    + rewrite (duplicate_try_read_throws _ _ _ _ _ _ _ _ Hfolder Hread).
      discriminate.
  - rewrite (duplicate_try_folder_throws _ _ _ _ _ _ _ Hfolder).
    discriminate.
  - exfalso. apply (ensureFolderExists_ends targetFolder s).
    now rewrite Hfolder.
Qed.

Lemma duplicate_never_throws (fuel : nat) (targetFolder : jsstring)
    (addPrefix : bool) (s : State World) :
  fst (duplicateFileToFolder fuel targetFolder addPrefix s) = Returned tt \/
  (fst (duplicateFileToFolder fuel targetFolder addPrefix s) = Diverged /\
   exists w fileName,
     resolvePath fuel (fun p => nonNull (getAbstractFileByPath w p))
       targetFolder fileName = None).
Proof.
  unfold duplicateFileToFolder, bind, ask.
  destruct (getActiveFile (world s)) as [f|]; [|now left].
  destruct (isTFile f); [|now left]. cbn [negb].
  unfold tryCatch.
  pose proof (duplicate_try_diverges fuel f targetFolder addPrefix s) as Hloop.
  destruct (duplicate_try fuel f targetFolder addPrefix s) as [[[]|e|] s'].
  - now left.
  - left. now rewrite duplicate_catch_run.
  - right. split; [reflexivity | now apply Hloop].
Qed.

End Runs.

(** ** The commands: claims *)

Section CommandClaims.

Context {World : Type} `{Host World}.

(** C5.  The destination path both commands build is the bare file name
    when the target folder is the empty string and [folder/filename]
    otherwise; it is the path [moveCurrentFileToFolder] hands to
    [renameFile], and the path [duplicateFileToFolder] hands to [create]
    when nothing is in the way. *)
Theorem destination_path_shape (targetFolder : jsstring) :
  (forall fileName,
     (targetFolder = [] -> newPathIn targetFolder fileName = fileName) /\
     (targetFolder <> [] ->
      newPathIn targetFolder fileName
      = targetFolder ++ str "/" ++ fileName)) /\
  (forall (s s1 : State World) (f : TAbstractFile) (addPrefix : bool),
     getActiveFile (world s) = Some f ->
     isTFile f = true ->
     ensureFolderExists targetFolder s = (Returned tt, s1) ->
     let fileName :=
       processFilenameWithPrefix (dateNow (world s1)) (name f) addPrefix in
     getAbstractFileByPath (world s1) (newPathIn targetFolder fileName)
       = None ->
     In (RenameFile f (newPathIn targetFolder fileName))
        (trace (snd (moveCurrentFileToFolder targetFolder addPrefix s)))) /\
  (forall (s s1 : State World) (f : TAbstractFile) (addPrefix : bool)
          (content : jsstring) (w2 : World) (fuel : nat),
     getActiveFile (world s) = Some f ->
     isTFile f = true ->
     ensureFolderExists targetFolder s = (Returned tt, s1) ->
     read f (world s1) = (Ok content, w2) ->
     let fileName :=
       processFilenameWithPrefix (dateNow w2) (name f) addPrefix in
     getAbstractFileByPath w2 (newPathIn targetFolder fileName) = None ->
     In (Create (newPathIn targetFolder fileName) content)
        (trace (snd (duplicateFileToFolder (S fuel) targetFolder
                       addPrefix s)))).
Proof.
  split; [|split].
  - intros fileName. split.
    + intros ->. reflexivity.
    + intros Hne. unfold newPathIn.
      destruct targetFolder; [congruence | reflexivity].
  - intros s s1 f addPrefix Hactive Hfile Hfolder fileName Hfree.
    rewrite (move_guarded f _ _ _ Hactive Hfile).
    unfold tryCatch. rewrite (move_try_after_folder _ _ _ _ _ Hfolder).
    cbv zeta. fold fileName. rewrite Hfree.
    unfold bind, call.
    destruct (renameFile f _ (world s1)) as [[renamed|e] w].
    + in_trace.
    + in_trace.
  - intros s s1 f addPrefix content w2 fuel Hactive Hfile Hfolder Hread
      fileName Hfree.
    rewrite (duplicate_guarded _ f _ _ _ Hactive Hfile).
    unfold tryCatch.
    rewrite (duplicate_try_after_read _ _ _ _ _ _ _ _ Hfolder Hread).
    cbv zeta. fold fileName. unfold resolvePath. cbn [resolveLoop].
    rewrite Hfree. cbn [nonNull].
    unfold bind, call. cbn [world after].
    destruct (create _ content w2) as [[newFile|e] w3].
    + cbn [world trace after].
      destruct (openFile newFile w3) as [[[]|e] w4].
      * in_trace.
      * in_trace.
    + in_trace.
Qed.

(** C7.  When something already exists at the destination path,
    [moveCurrentFileToFolder] shows a notice and returns: no rename is
    made, and apart from a folder creation that came first the state is
    the one the command started in. *)
Theorem move_collision_noticed
    (s s1 : State World) (f found : TAbstractFile)
    (targetFolder : jsstring) (addPrefix : bool) :
  getActiveFile (world s) = Some f ->
  isTFile f = true ->
  ensureFolderExists targetFolder s = (Returned tt, s1) ->
  getAbstractFileByPath (world s1)
    (newPathIn targetFolder
       (processFilenameWithPrefix (dateNow (world s1)) (name f) addPrefix))
    = Some found ->
  let newPath :=
    newPathIn targetFolder
      (processFilenameWithPrefix (dateNow (world s1)) (name f) addPrefix) in
  moveCurrentFileToFolder targetFolder addPrefix s
    = (Returned tt,
       logged s1 [Notice (str "File already exists at " ++ newPath)]) /\
  (s1 = s \/
   s1 = after s (snd (createFolder targetFolder (world s)))
          [CreateFolder targetFolder]) /\
  (forall file p,
     In (RenameFile file p)
        (trace (snd (moveCurrentFileToFolder targetFolder addPrefix s))) ->
     In (RenameFile file p) (trace s)).
Proof.
  intros Hactive Hfile Hfolder Hfound newPath.
  assert (Hrun : moveCurrentFileToFolder targetFolder addPrefix s
                 = (Returned tt,
                    logged s1
                      [Notice (str "File already exists at " ++ newPath)])).
  { rewrite (move_guarded f _ _ _ Hactive Hfile).
    apply tryCatch_returned.
    rewrite (move_try_after_folder _ _ _ _ _ Hfolder). cbv zeta.
    now rewrite Hfound. }
  pose proof (ensureFolderExists_returned _ _ _ Hfolder) as Hs1.
  split; [exact Hrun|]. split; [exact Hs1|].
  intros file p. rewrite Hrun. cbn.
  destruct Hs1 as [->| ->]; cbn; rewrite !in_app_iff; simpl;
    intuition discriminate.
Qed.

(** C8, as amended.  Neither command lets a failure out: the move command
    always returns, and the duplicate command returns unless its loop does
    not end.  A missing active file and an active item that is not a file
    are answered with a notice alone; an exception thrown inside the [try]
    block - by folder creation, read, create or rename - is caught,
    written to the console and shown as a notice. *)
Theorem failures_are_noticed
    (s : State World) (targetFolder : jsstring) (addPrefix : bool)
    (fuel : nat) :
  fst (moveCurrentFileToFolder targetFolder addPrefix s) = Returned tt /\
  (fst (duplicateFileToFolder fuel targetFolder addPrefix s) = Returned tt \/
   (fst (duplicateFileToFolder fuel targetFolder addPrefix s) = Diverged /\
    exists w fileName,
      resolvePath fuel (fun p => nonNull (getAbstractFileByPath w p))
        targetFolder fileName = None)) /\
  (getActiveFile (world s) = None ->
   moveCurrentFileToFolder targetFolder addPrefix s
     = (Returned tt, logged s [Notice (str "No active file to move")]) /\
   duplicateFileToFolder fuel targetFolder addPrefix s
     = (Returned tt, logged s [Notice (str "No active file to duplicate")])) /\
  (forall f,
     getActiveFile (world s) = Some f -> isTFile f = false ->
     moveCurrentFileToFolder targetFolder addPrefix s
       = (Returned tt, logged s [Notice (str "Active item is not a file")]) /\
     duplicateFileToFolder fuel targetFolder addPrefix s
       = (Returned tt, logged s [Notice (str "Active item is not a file")])) /\
  (forall f e s',
     getActiveFile (world s) = Some f -> isTFile f = true ->
     move_try f targetFolder addPrefix s = (Thrown e, s') ->
     moveCurrentFileToFolder targetFolder addPrefix s
       = (Returned tt,
          logged s' [ConsoleError (str "Error moving file:") e;
                     Notice (str "Error moving file: " ++ message e)])) /\
  (forall f e s',
     getActiveFile (world s) = Some f -> isTFile f = true ->
     duplicate_try fuel f targetFolder addPrefix s = (Thrown e, s') ->
     duplicateFileToFolder fuel targetFolder addPrefix s
       = (Returned tt,
          logged s' [ConsoleError (str "Error duplicating file:") e;
                     Notice (str "Error duplicating file: " ++ message e)])) /\
  (forall f e w,
     targetFolder <> [] ->
     getAbstractFileByPath (world s) targetFolder = None ->
     createFolder targetFolder (world s) = (Err e, w) ->
     move_try f targetFolder addPrefix s
       = (Thrown e, after s w [CreateFolder targetFolder]) /\
     duplicate_try fuel f targetFolder addPrefix s
       = (Thrown e, after s w [CreateFolder targetFolder])) /\
  (forall f e s1 w,
     ensureFolderExists targetFolder s = (Returned tt, s1) ->
     getAbstractFileByPath (world s1)
       (newPathIn targetFolder
          (processFilenameWithPrefix (dateNow (world s1)) (name f)
             addPrefix)) = None ->
     renameFile f
       (newPathIn targetFolder
          (processFilenameWithPrefix (dateNow (world s1)) (name f)
             addPrefix)) (world s1) = (Err e, w) ->
     move_try f targetFolder addPrefix s
       = (Thrown e,
          after s1 w
            [RenameFile f
               (newPathIn targetFolder
                  (processFilenameWithPrefix (dateNow (world s1)) (name f)
                     addPrefix))])) /\
  (forall f e s1 w,
     ensureFolderExists targetFolder s = (Returned tt, s1) ->
     read f (world s1) = (Err e, w) ->
     duplicate_try fuel f targetFolder addPrefix s
       = (Thrown e, after s1 w [Read f])) /\
  (forall f e s1 content newPath w2 w3,
     ensureFolderExists targetFolder s = (Returned tt, s1) ->
     read f (world s1) = (Ok content, w2) ->
     resolvePath fuel (fun p => nonNull (getAbstractFileByPath w2 p))
       targetFolder
       (processFilenameWithPrefix (dateNow w2) (name f) addPrefix)
       = Some newPath ->
     create newPath content w2 = (Err e, w3) ->
     duplicate_try fuel f targetFolder addPrefix s
       = (Thrown e, after s1 w3 [Read f; Create newPath content])).
Proof.
  split; [apply move_returns|].
  split; [apply duplicate_never_throws|].
  repeat match goal with |- _ /\ _ => split end.
  - intros Hnone. unfold moveCurrentFileToFolder, duplicateFileToFolder.
    unfold bind, ask. rewrite Hnone. split; reflexivity.
  - intros f Hactive Hfile.
    unfold moveCurrentFileToFolder, duplicateFileToFolder.
    unfold bind, ask. rewrite Hactive, Hfile. split; reflexivity.
  - intros f e s' Hactive Hfile Hthrown.
    rewrite (move_guarded f _ _ _ Hactive Hfile).
    rewrite (tryCatch_thrown _ _ _ _ _ Hthrown). apply move_catch_run.
  - intros f e s' Hactive Hfile Hthrown.
    rewrite (duplicate_guarded _ f _ _ _ Hactive Hfile).
    rewrite (tryCatch_thrown _ _ _ _ _ Hthrown). apply duplicate_catch_run.
  - intros f e w Hne Hnone Hcreate.
    pose proof (ensureFolderExists_throws _ _ _ _ Hne Hnone Hcreate) as Hthrow.
    split; [now apply move_try_folder_throws
           | now apply duplicate_try_folder_throws].
  - intros f e s1 w Hfolder Hfree Hrename.
    exact (move_try_rename_throws _ _ _ _ _ _ _ Hfolder Hfree Hrename).
  - intros f e s1 w Hfolder Hread.
    now apply duplicate_try_read_throws.
  - intros f e s1 content newPath w2 w3 Hfolder Hread Hpath Hcreate.
    now apply (duplicate_try_create_throws _ _ _ _ _ _ _ _ _ _ _
                 Hfolder Hread Hpath Hcreate).
Qed.

(** C10.  For an active file at the vault root, [moveToParentFolder]
    takes the root as target, the destination path is the file's own
    path, the existence check finds an item there, and the command ends
    with the notice that the file already exists, the world untouched. *)
Theorem moveToParentFolder_root_file
    (s : State World) (f found : TAbstractFile) :
  getActiveFile (world s) = Some f ->
  isTFile f = true ->
  ~ In "/"%char (path f) ->
  name f = path f ->
  getAbstractFileByPath (world s) (path f) = Some found ->
  JS.substring (JS.substring (path f) 0 (JS.lastIndexOf (path f) "/"%char)) 0
    (JS.lastIndexOf
       (JS.substring (path f) 0 (JS.lastIndexOf (path f) "/"%char))
       "/"%char) = [] /\
  newPathIn [] (processFilenameWithPrefix (dateNow (world s)) (name f) false)
    = path f /\
  moveToParentFolder s
    = (Returned tt,
       logged s [Notice (str "File already exists at " ++ path f)]).
Proof.
  intros Hactive Hfile Hroot Hname Hfound.
  assert (Hparent :
            JS.substring (path f) 0 (JS.lastIndexOf (path f) "/"%char) = []).
  { rewrite lastIndexOf_notin by exact Hroot.
    apply substring_to_negative. lia. }
  assert (Hdest :
            newPathIn []
              (processFilenameWithPrefix (dateNow (world s)) (name f) false)
            = path f) by exact Hname.
  split; [|split; [exact Hdest|]].
  - rewrite Hparent. reflexivity.
  - unfold moveToParentFolder. unfold bind at 1, ask. rewrite Hactive.
    cbv zeta. rewrite Hparent.
    change (JS.strict_eq (JS.substring [] 0 (JS.lastIndexOf [] "/"%char)) [])
      with true. cbv iota.
    rewrite (move_guarded f _ _ _ Hactive Hfile).
    apply tryCatch_returned.
    rewrite (move_try_after_folder _ _ _ _ _ (ensureFolderExists_root s)).
    cbv zeta. rewrite Hdest, Hfound. reflexivity.
Qed.

End CommandClaims.

(** ** The commands on concrete vaults *)

Lemma destination_path_shape_witness :
  let s := MemVault.start MemVault.oneNote in
  let f := MemVault.fileAt (str "note.md") in
  newPathIn [] (str "note.md") = str "note.md" /\
  newPathIn (str "Archive") (str "note.md") = str "Archive/note.md" /\
  In (RenameFile f (str "Archive/note.md"))
     (trace (snd (moveCurrentFileToFolder (str "Archive") false s))) /\
  In (Create (str "Archive/note.md") (str "hello"))
     (trace (snd (duplicateFileToFolder 1 (str "Archive") false s))).
Proof.
  intros s f.
  destruct (destination_path_shape (World := MemVault.World) [])
    as (Hroot & _ & _).
  destruct (destination_path_shape (World := MemVault.World) (str "Archive"))
    as (Hshape & Hmove & Hdup).
  split; [exact (proj1 (Hroot (str "note.md")) eq_refl)|].
  split; [exact (proj2 (Hshape (str "note.md")) ltac:(discriminate))|].
  split.
  - exact (Hmove s _ f false eq_refl eq_refl eq_refl eq_refl).
  - exact (Hdup s _ f false (str "hello") _ 0%nat
             eq_refl eq_refl eq_refl eq_refl eq_refl).
Defined.

Lemma move_collision_noticed_witness :
  let s := MemVault.start MemVault.archived in
  getActiveFile (world s) = Some (MemVault.fileAt (str "note.md")) /\
  ensureFolderExists (str "Archive") s = (Returned tt, s) /\
  getAbstractFileByPath (world s) (str "Archive/note.md")
    = Some (MemVault.fileAt (str "Archive/note.md")) /\
  moveCurrentFileToFolder (str "Archive") false s
    = (Returned tt,
       logged s [Notice (str "File already exists at Archive/note.md")]).
Proof.
  intros s.
  assert (Hactive : getActiveFile (world s)
                    = Some (MemVault.fileAt (str "note.md"))) by reflexivity.
  assert (Hfolder : ensureFolderExists (str "Archive") s = (Returned tt, s))
    by reflexivity.
  assert (Hfound : getAbstractFileByPath (world s) (str "Archive/note.md")
                   = Some (MemVault.fileAt (str "Archive/note.md")))
    by reflexivity.
  exact (conj Hactive (conj Hfolder (conj Hfound
           (proj1 (move_collision_noticed s s _ _ (str "Archive") false
                     Hactive eq_refl Hfolder Hfound))))).
Defined.

(** C8, as stated, fails for the two guards in front of the [try] block:
    with no active file the command shows its notice and returns, and
    nothing is written to the console. *)
Lemma missing_active_file_not_logged :
  let s := MemVault.start MemVault.idle in
  getActiveFile (world s) = None /\
  moveCurrentFileToFolder (str "Archive") false s
    = (Returned tt, logged s [Notice (str "No active file to move")]) /\
  duplicateFileToFolder 1 (str "Archive") false s
    = (Returned tt, logged s [Notice (str "No active file to duplicate")]) /\
  ~ (exists label e,
       In (ConsoleError label e)
          (trace (snd (moveCurrentFileToFolder (str "Archive") false s)))) /\
  ~ (exists label e,
       In (ConsoleError label e)
          (trace (snd (duplicateFileToFolder 1 (str "Archive") false s)))).
Proof.
  intros s. do 3 (split; [reflexivity|]).
  split; intros (label & e & [Hin|[]]); discriminate.
Qed.

Lemma failures_are_noticed_witness :
  let s := MemVault.start MemVault.stale in
  let f := MemVault.fileAt (str "note.md") in
  let e := {| message := str "ENOENT: no such file or directory" |} in
  getActiveFile (world s) = Some f /\
  isTFile f = true /\
  fst (move_try f (str "Archive") false s) = Thrown e /\
  fst (moveCurrentFileToFolder (str "Archive") false s) = Returned tt /\
  trace (snd (moveCurrentFileToFolder (str "Archive") false s))
    = [CreateFolder (str "Archive");
       RenameFile f (str "Archive/note.md");
       ConsoleError (str "Error moving file:") e;
       Notice (str "Error moving file: ENOENT: no such file or directory")].
Proof.
  intros s f e.
  destruct (failures_are_noticed s (str "Archive") false 1)
    as (Hreturns & _ & _ & _ & Hcaught & _).
  assert (Hactive : getActiveFile (world s) = Some f) by reflexivity.
  assert (Hfile : isTFile f = true) by reflexivity.
  specialize (Hcaught f e _ Hactive Hfile eq_refl).
  split; [exact Hactive|]. split; [exact Hfile|]. split; [reflexivity|].
  split; [exact Hreturns|].
  rewrite Hcaught. reflexivity.
Defined.

Lemma moveToParentFolder_root_file_witness :
  let s := MemVault.start MemVault.oneNote in
  let f := MemVault.fileAt (str "note.md") in
  getActiveFile (world s) = Some f /\
  isTFile f = true /\
  ~ In "/"%char (path f) /\
  name f = path f /\
  getAbstractFileByPath (world s) (path f) = Some f /\
  moveToParentFolder s
    = (Returned tt, logged s [Notice (str "File already exists at note.md")]).
Proof.
  intros s f.
  assert (Hactive : getActiveFile (world s) = Some f) by reflexivity.
  assert (Hfile : isTFile f = true) by reflexivity.
  assert (Hroot : ~ In "/"%char (path f)).
  { simpl. intros Hin.
    repeat (destruct Hin as [Hin|Hin]; [discriminate|]). exact Hin. }
  assert (Hname : name f = path f) by reflexivity.
  assert (Hfound : getAbstractFileByPath (world s) (path f) = Some f)
    by reflexivity.
  exact (conj Hactive (conj Hfile (conj Hroot (conj Hname (conj Hfound
           (proj2 (proj2 (moveToParentFolder_root_file s f f
                            Hactive Hfile Hroot Hname Hfound)))))))).
Defined.

(** * Further properties *)

(** ** The conflict-resolving loop on any vault *)

Lemma resolveLoop_sound (present : jsstring -> bool)
    (folder base ext : jsstring) (fuel : nat) :
  forall (newPath : jsstring) (counter : N) (p : jsstring),
    resolveLoop fuel present folder base ext newPath counter = Some p ->
    present p = false /\
    (p = newPath \/
     present newPath = true /\
     exists n : nat,
       (n + 2 <= fuel)%nat /\
       p = numberedPath folder base ext (counter + N.of_nat n) /\
       forall i, (i < n)%nat ->
         present (numberedPath folder base ext (counter + N.of_nat i))
         = true).
Proof.
  induction fuel as [|fuel IH]; intros newPath counter p Hrun;
    [discriminate|].
  cbn [resolveLoop] in Hrun.
  destruct (present newPath) eqn:Hocc.
  - fold (numberedPath folder base ext counter) in Hrun.
    destruct (IH _ _ _ Hrun) as [Hfree [->|(Hnext & n & Hfuel & -> & Hbelow)]].
    + split; [exact Hfree|]. right. split; [reflexivity|].
      exists 0%nat. split; [destruct fuel; [discriminate | lia]|].
      split; [f_equal; lia | intros i Hi; lia].
    + split; [exact Hfree|]. right. split; [reflexivity|].
      exists (S n). split; [lia|]. split; [f_equal; lia|].
      intros i Hi. destruct i as [|i].
      * now replace (counter + N.of_nat 0)%N with counter by lia.
      * replace (counter + N.of_nat (S i))%N
          with (counter + 1 + N.of_nat i)%N by lia.
        apply Hbelow. lia.
  - injection Hrun as <-. split; [exact Hocc | now left].
Qed.

(** X1.  Whatever the vault, finite or not, a path the loop returns is
    one the existence check rejects, it is the desired path or a numbered
    one, and every path tried before it was occupied. *)
Theorem resolvePath_returns_free
    (present : jsstring -> bool) (targetFolder fileName : jsstring)
    (fuel : nat) (p : jsstring) :
  resolvePath fuel present targetFolder fileName = Some p ->
  exists k : N,
    (N.to_nat k < fuel)%nat /\
    p = candidate targetFolder fileName k /\
    present p = false /\
    forall j, (j < k)%N -> present (candidate targetFolder fileName j) = true.
Proof.
  unfold resolvePath. intros Hrun.
  destruct (resolveLoop_sound _ _ _ _ _ _ _ _ Hrun)
    as [Hfree [->|(Hfirst & n & Hfuel & -> & Hbelow)]].
  - exists 0%N. split; [destruct fuel; [discriminate | simpl; lia]|].
    split; [reflexivity|]. split; [exact Hfree | intros j Hj; lia].
  - exists (1 + N.of_nat n)%N. split; [lia|].
    assert (Hcand : forall i : nat,
               candidate targetFolder fileName (1 + N.of_nat i)
               = numberedPath targetFolder (dup_baseName fileName)
                   (dup_extension fileName) (1 + N.of_nat i)).
    { intros i. unfold candidate.
      destruct (N.eqb_spec (1 + N.of_nat i) 0); [lia | reflexivity]. }
    split; [now rewrite Hcand|]. split; [exact Hfree|].
    intros j Hj. destruct (N.eq_dec j 0) as [->|Hnz]; [exact Hfirst|].
    replace j with (1 + N.of_nat (N.to_nat j - 1))%N by lia.
    rewrite Hcand. apply Hbelow. lia.
Qed.

Lemma resolvePath_returns_free_witness :
  let present := occupiedBy [str "note.md"; str "note 1.md"] in
  resolvePath 3 present [] (str "note.md") = Some (str "note 2.md") /\
  exists k : N,
    (N.to_nat k < 3)%nat /\
    str "note 2.md" = candidate [] (str "note.md") k /\
    present (str "note 2.md") = false /\
    forall j, (j < k)%N -> present (candidate [] (str "note.md") j) = true.
Proof.
  intros present.
  assert (Hrun : resolvePath 3 present [] (str "note.md")
                 = Some (str "note 2.md")) by reflexivity.
  exact (conj Hrun (resolvePath_returns_free present [] (str "note.md") 3
                      (str "note 2.md") Hrun)).
Defined.

(** With finitely many occupied paths the loop ends on the first free
    numbered path, whatever base and extension it numbers. *)
Lemma resolveLoop_first_free
    (present : jsstring -> bool) (occupied : list jsstring)
    (folder base ext newPath : jsstring) (fuel : nat) :
  (forall q, present q = true -> In q occupied) ->
  (List.length occupied + 2 <= fuel)%nat ->
  present newPath = true ->
  exists n : nat,
    (n <= List.length occupied)%nat /\
    resolveLoop fuel present folder base ext newPath 1
      = Some (numberedPath folder base ext (1 + N.of_nat n)) /\
    present (numberedPath folder base ext (1 + N.of_nat n)) = false /\
    forall i, (i < n)%nat ->
      present (numberedPath folder base ext (1 + N.of_nat i)) = true.
Proof.
  intros Hfin Hfuel Hfirst.
  destruct (least_false
              (fun i => present (numberedPath folder base ext
                                   (1 + N.of_nat i)))
              (S (List.length occupied))) as [Hall|(n & Hn & Hfree & Hbelow)].
  - exfalso.
    exact (numbered_not_all_occupied present folder base ext occupied
             Hfin Hall).
  - exists n. split; [lia|]. split; [|split; [exact Hfree | exact Hbelow]].
    apply resolveLoop_run; [exact Hfirst | exact Hbelow | exact Hfree | lia].
Qed.

(** X2.  For a name with a dot past its first character the parse splits
    at the last dot, and the numbered alternatives put the counter between
    the base and the extension: the extension is kept. *)
Theorem numbered_keeps_extension
    (targetFolder p r : jsstring) (k : N) :
  p <> [] ->
  ~ In "."%char r ->
  k <> 0%N ->
  dup_baseName (p ++ "."%char :: r) ++ dup_extension (p ++ "."%char :: r)
    = p ++ "."%char :: r /\
  candidate targetFolder (p ++ "."%char :: r) k
    = newPathIn targetFolder
        (p ++ str " " ++ JS.numberToString k ++ "."%char :: r).
Proof.
  intros Hp Hr Hk. destruct (dup_parse_dot p r Hp Hr) as [Hbase Hext].
  split; [now rewrite Hbase, Hext|].
  unfold candidate. destruct (N.eqb_spec k 0) as [|_]; [contradiction|].
  unfold numberedPath, numberedName. now rewrite Hbase, Hext.
Qed.

Lemma numbered_keeps_extension_witness :
  str "my.notes" <> [] /\
  ~ In "."%char (str "md") /\
  12%N <> 0%N /\
  candidate (str "docs") (str "my.notes.md") 12
    = str "docs/my.notes 12.md".
Proof.
  assert (Hp : str "my.notes" <> []) by discriminate.
  assert (Hr : ~ In "."%char (str "md")).
  { simpl. intros [H|[H|[]]]; discriminate. }
  assert (Hk : 12%N <> 0%N) by discriminate.
  exact (conj Hp (conj Hr (conj Hk
           (proj2 (numbered_keeps_extension (str "docs") (str "my.notes")
                     (str "md") 12 Hp Hr Hk))))).
Defined.

(** X21.  For a file name [base.ext] - a dot past the first character,
    no dot after it - and a finite set of occupied paths, the loop ends
    and returns a path the existence check rejects, having tried
    [base.ext] first and then [base 1.ext], [base 2.ext], ... in the
    target folder, one counter value after the other, up to the first
    free one. *)
Theorem resolvePath_dotted_name
    (present : jsstring -> bool) (occupied : list jsstring)
    (targetFolder p r : jsstring) (fuel : nat) :
  p <> [] ->
  ~ In "."%char r ->
  (forall q, present q = true -> In q occupied) ->
  (List.length occupied + 2 <= fuel)%nat ->
  let tried (k : N) :=
    if (k =? 0)%N then newPathIn targetFolder (p ++ "."%char :: r)
    else newPathIn targetFolder
           (p ++ str " " ++ JS.numberToString k ++ "."%char :: r) in
  exists k : N,
    (k <= N.of_nat (List.length occupied) + 1)%N /\
    resolvePath fuel present targetFolder (p ++ "."%char :: r)
      = Some (tried k) /\
    present (tried k) = false /\
    forall j, (j < k)%N -> present (tried j) = true.
Proof.
  intros Hp Hr Hfin Hfuel tried.
  destruct (dup_parse_dot p r Hp Hr) as [Hbase Hext].
  assert (Htried : forall i : nat,
             tried (1 + N.of_nat i)%N
             = numberedPath targetFolder p ("."%char :: r)
                 (1 + N.of_nat i)).
  { intros i. unfold tried.
    destruct (N.eqb_spec (1 + N.of_nat i) 0); [lia | reflexivity]. }
  unfold resolvePath. rewrite Hbase, Hext.
  destruct (present (newPathIn targetFolder (p ++ "."%char :: r)))
    eqn:Hfirst.
  - destruct (resolveLoop_first_free present occupied targetFolder p
                ("."%char :: r) _ fuel Hfin Hfuel Hfirst)
      as (n & Hn & Hrun & Hfree & Hbelow).
    exists (1 + N.of_nat n)%N. split; [lia|].
    rewrite Htried. split; [exact Hrun|]. split; [exact Hfree|].
    intros j Hj. destruct (N.eq_dec j 0) as [->|Hnz]; [exact Hfirst|].
    replace j with (1 + N.of_nat (N.to_nat j - 1))%N by lia.
    rewrite Htried. apply Hbelow. lia.
  - exists 0%N. split; [lia|]. split; [|split].
    + destruct fuel as [|fuel]; [lia|].
      apply resolveLoop_free. exact Hfirst.
    + exact Hfirst.
    + intros j Hj. lia.
Qed.

Lemma resolvePath_dotted_name_witness :
  let occupied := [str "docs/note.md"; str "docs/note 1.md"] in
  str "note" <> [] /\
  ~ In "."%char (str "md") /\
  (forall q, occupiedBy occupied q = true -> In q occupied) /\
  resolvePath 4 (occupiedBy occupied) (str "docs") (str "note.md")
    = Some (str "docs/note 2.md") /\
  exists k : N,
    (k <= 3)%N /\
    resolvePath 4 (occupiedBy occupied) (str "docs") (str "note.md")
      = Some (if (k =? 0)%N then str "docs/note.md"
              else str "docs/note " ++ JS.numberToString k ++ str ".md").
Proof.
  intros occupied.
  assert (Hp : str "note" <> []) by discriminate.
  assert (Hr : ~ In "."%char (str "md")).
  { simpl. intros [H|[H|[]]]; discriminate. }
  assert (Hfin : forall q, occupiedBy occupied q = true -> In q occupied).
  { intros q. unfold occupiedBy.
    destruct (in_dec (list_eq_dec ascii_dec) q occupied);
      [trivial | discriminate]. }
  destruct (resolvePath_dotted_name (occupiedBy occupied) occupied
              (str "docs") (str "note") (str "md") 4 Hp Hr Hfin
              ltac:(simpl; lia)) as (k & Hk & Hrun & _ & _).
  split; [exact Hp|]. split; [exact Hr|]. split; [exact Hfin|].
  split; [reflexivity|].
  exists k. split; [exact Hk|].
  destruct (N.eqb_spec k 0) as [Hz|Hz]; exact Hrun.
Defined.

(** ** More on the prefix transform *)

(** Where a string is cut at its first occurrence of [c] is determined by
    the string. *)
Lemma first_cut_unique (c : ascii) (p1 p2 r1 r2 : jsstring) :
  ~ In c p1 -> ~ In c p2 ->
  p1 ++ c :: r1 = p2 ++ c :: r2 -> p1 = p2 /\ r1 = r2.
Proof.
  revert p2. induction p1 as [|x p1 IH]; intros [|y p2] H1 H2 Heq;
    simpl in Heq.
  - injection Heq as <-. now split.
  - injection Heq as <- _. exfalso. apply H2. now left.
  - injection Heq as -> _. exfalso. apply H1. now left.
  - injection Heq as <- Heq.
    destruct (IH p2) as [<- <-]; try assumption.
    + intros Hin. apply H1. now right.
    + intros Hin. apply H2. now right.
    + now split.
Qed.

Lemma cepoch_inj (now1 now2 : N) :
  cepoch now1 = cepoch now2 -> (now1 / 1000 = now2 / 1000)%N.
Proof.
  unfold cepoch, JS.reversed. intros Heq.
  apply (f_equal (@rev ascii)) in Heq. rewrite !rev_involutive in Heq.
  apply (toString_inj 36); [lia | exact Heq].
Qed.

Lemma prefixed_inj (now1 now2 : N) (x y : jsstring) :
  cepoch now1 ++ "_"%char :: x = cepoch now2 ++ "_"%char :: y ->
  (now1 / 1000 = now2 / 1000)%N /\ x = y.
Proof.
  intros Heq.
  destruct (first_cut_unique "_"%char _ _ _ _
              (proj2 (cepoch_plain now1)) (proj2 (cepoch_plain now2)) Heq)
    as [Hc Hx].
  split; [now apply cepoch_inj | exact Hx].
Qed.

(** X3.  Clock readings in different seconds give different prefixes and
    different results, and applying the transform again in a later second
    changes the name: across seconds it is not idempotent. *)
Theorem prefix_differs_across_seconds (now1 now2 : N) (name : jsstring) :
  (now1 / 1000 <> now2 / 1000)%N ->
  cepoch now1 <> cepoch now2 /\
  processFilenameWithPrefix now1 name true
    <> processFilenameWithPrefix now2 name true /\
  processFilenameWithPrefix now2
      (processFilenameWithPrefix now1 name true) true
    <> processFilenameWithPrefix now1 name true.
Proof.
  intros Hsec.
  assert (Hdiff : processFilenameWithPrefix now1 name true
                  <> processFilenameWithPrefix now2 name true).
  { unfold processFilenameWithPrefix. simpl negb. cbv iota. intros Heq.
    apply prefixed_inj in Heq. now destruct Heq. }
  split; [|split].
  - intros Heq. apply Hsec. now apply cepoch_inj.
  - exact Hdiff.
  - rewrite processFilenameWithPrefix_again. intros Heq. now apply Hdiff.
Qed.

Lemma prefix_differs_across_seconds_witness :
  (1700000000123 / 1000 <> 1700000061000 / 1000)%N /\
  processFilenameWithPrefix 1700000000123 (str "note.md") true
    = str "8ew44s_note.md" /\
  processFilenameWithPrefix 1700000061000 (str "8ew44s_note.md") true
    = str "xfw44s_note.md" /\
  processFilenameWithPrefix 1700000061000
      (processFilenameWithPrefix 1700000000123 (str "note.md") true) true
    <> processFilenameWithPrefix 1700000000123 (str "note.md") true.
Proof.
  assert (Hsec : (1700000000123 / 1000 <> 1700000061000 / 1000)%N)
    by discriminate.
  split; [exact Hsec|]. split; [reflexivity|]. split; [reflexivity|].
  exact (proj2 (proj2 (prefix_differs_across_seconds
                         1700000000123 1700000061000 (str "note.md") Hsec))).
Defined.

(** X4.  However often a name is run through the transform, at whatever
    times, it ends up with one prefix, that of the last application, in
    front of what a single application would have kept. *)
Theorem reprefixAll_keeps_last
    (times : list N) (last : N) (fileName : jsstring) :
  reprefixAll (times ++ [last]) fileName
  = processFilenameWithPrefix last fileName true.
Proof.
  unfold reprefixAll. revert fileName.
  induction times as [|t times IH]; intros fileName; [reflexivity|].
  cbn [app fold_left]. rewrite IH.
  apply processFilenameWithPrefix_again.
Qed.

(** X5.  A name without an underscore is kept whole behind the new
    prefix, and the part of the transform that strips a prefix gives it
    back from the result. *)
Theorem prefix_keeps_plain_name (now : N) (name : jsstring) :
  ~ In "_"%char name ->
  processFilenameWithPrefix now name true = cepoch now ++ "_"%char :: name /\
  prefix_baseName (processFilenameWithPrefix now name true)
    ++ prefix_extension (processFilenameWithPrefix now name true)
  = name.
Proof.
  intros Hplain.
  assert (Hnwe : ~ In "_"%char (prefix_nameWithoutExt name)).
  { intros Hin. apply Hplain. rewrite <- (prefix_split_app name).
    apply in_or_app. now left. }
  assert (Hrun : processFilenameWithPrefix now name true
                 = cepoch now ++ "_"%char :: name).
  { unfold processFilenameWithPrefix. simpl negb. cbv iota.
    rewrite (prefix_baseName_keep name (or_introl Hnwe)).
    now rewrite (prefix_split_app name). }
  split; [exact Hrun|]. rewrite Hrun.
  destruct (cepoch_plain now) as [Hdot Hund].
  apply strip_prefixed; [apply cepoch_nonempty | exact Hdot | exact Hund].
Qed.

Lemma prefix_keeps_plain_name_witness :
  ~ In "_"%char (str "a.b") /\
  processFilenameWithPrefix 1700000000123 (str "a.b") true
    = str "8ew44s_a.b" /\
  prefix_baseName (str "8ew44s_a.b") ++ prefix_extension (str "8ew44s_a.b")
    = str "a.b".
Proof.
  assert (Hplain : ~ In "_"%char (str "a.b")).
  { simpl. intros [H|[H|[H|[]]]]; discriminate. }
  exact (conj Hplain
           (prefix_keeps_plain_name 1700000000123 (str "a.b") Hplain)).
Defined.

(** ** What the commands add to the trace *)

Section Emits.

Context {World : Type} `{Host World}.

Variable P : Event -> Prop.

Lemma onlyEmits_ret {A} (a : A) : onlyEmits P (ret (World := World) a).
Proof.
  intros s. exists []. split; [symmetry; apply app_nil_r | constructor].
Qed.

Lemma onlyEmits_ask {A} (q : World -> A) : onlyEmits P (ask q).
Proof.
  intros s. exists []. split; [symmetry; apply app_nil_r | constructor].
Qed.

Lemma onlyEmits_ofOption {A} (o : option A) :
  onlyEmits P (ofOption (World := World) o).
Proof.
  intros s. exists []. split; [|constructor].
  destruct o; symmetry; apply app_nil_r.
Qed.

Lemma onlyEmits_emit (ev : Event) :
  P ev -> onlyEmits P (emit (World := World) ev).
Proof.
  intros Hev s. exists [ev]. split; [reflexivity | now repeat constructor].
Qed.

Lemma onlyEmits_call {A} (ev : Event) (op : World -> Result A * World) :
  P ev -> onlyEmits P (call ev op).
Proof.
  intros Hev s. exists [ev]. split; [|now repeat constructor].
  unfold call. destruct (op (world s)) as [[a|e] w]; reflexivity.
Qed.

Lemma onlyEmits_bind {A B} (m : M World A) (k : A -> M World B) :
  onlyEmits P m -> (forall a, onlyEmits P (k a)) -> onlyEmits P (bind m k).
Proof.
  intros Hm Hk s. unfold bind. destruct (Hm s) as (added & Heq & Hall).
  destruct (m s) as [[a|e|] s1]; cbn [snd] in *.
  - destruct (Hk a s1) as (more & Heq' & Hall').
    exists (added ++ more). split; [|now apply Forall_app].
    now rewrite Heq', Heq, app_assoc.
  - now exists added.
  - now exists added.
Qed.

Lemma onlyEmits_tryCatch {A} (body : M World A)
    (handler : Error -> M World A) :
  onlyEmits P body -> (forall e, onlyEmits P (handler e)) ->
  onlyEmits P (tryCatch body handler).
Proof.
  intros Hm Hk s. unfold tryCatch. destruct (Hm s) as (added & Heq & Hall).
  destruct (body s) as [[a|e|] s1]; cbn [snd] in *.
  - now exists added.
  - destruct (Hk e s1) as (more & Heq' & Hall').
    exists (added ++ more). split; [|now apply Forall_app].
    now rewrite Heq', Heq, app_assoc.
  - now exists added.
Qed.

End Emits.

Section EmitsOfCommands.

Context {World : Type} `{Host World}.

Lemma ensureFolderExists_emits (P : Event -> Prop) (folderPath : jsstring) :
  P (CreateFolder folderPath) ->
  onlyEmits P (ensureFolderExists (World := World) folderPath).
Proof.
  intros Hev. unfold ensureFolderExists.
  destruct (negb (JS.truthy folderPath)); [apply onlyEmits_ret|].
  apply onlyEmits_bind; [apply onlyEmits_ask|].
  intros [found|]; [apply onlyEmits_ret | now apply onlyEmits_call].
Qed.

Lemma move_emits (targetFolder : jsstring) (addPrefix : bool) :
  onlyEmits movesOnly
    (moveCurrentFileToFolder (World := World) targetFolder addPrefix).
Proof.
  unfold moveCurrentFileToFolder.
  apply onlyEmits_bind; [apply onlyEmits_ask|].
  intros [f|]; [|now apply onlyEmits_emit].
  destruct (negb (isTFile f)); [now apply onlyEmits_emit|].
  apply onlyEmits_tryCatch.
  - unfold move_try.
    apply onlyEmits_bind; [now apply ensureFolderExists_emits|]. intros _.
    apply onlyEmits_bind; [apply onlyEmits_ask|]. intros now.
    cbv zeta. apply onlyEmits_bind; [apply onlyEmits_ask|].
    intros [found|]; [now apply onlyEmits_emit|].
    apply onlyEmits_bind; [now apply onlyEmits_call|]. intros renamed.
    now apply onlyEmits_emit.
  - intros e. unfold move_catch.
    apply onlyEmits_bind; [now apply onlyEmits_emit|]. intros _.
    now apply onlyEmits_emit.
Qed.

Lemma duplicate_emits (fuel : nat) (targetFolder : jsstring)
    (addPrefix : bool) :
  onlyEmits renamesNothing
    (duplicateFileToFolder (World := World) fuel targetFolder addPrefix).
Proof.
  unfold duplicateFileToFolder.
  apply onlyEmits_bind; [apply onlyEmits_ask|].
  intros [f|]; [|now apply onlyEmits_emit].
  destruct (negb (isTFile f)); [now apply onlyEmits_emit|].
  apply onlyEmits_tryCatch.
  - unfold duplicate_try.
    apply onlyEmits_bind; [now apply ensureFolderExists_emits|]. intros _.
    apply onlyEmits_bind; [now apply onlyEmits_call|]. intros content.
    apply onlyEmits_bind; [apply onlyEmits_ask|]. intros now.
    cbv zeta. apply onlyEmits_bind; [apply onlyEmits_ask|]. intros found.
    apply onlyEmits_bind; [apply onlyEmits_ofOption|]. intros newPath.
    apply onlyEmits_bind; [now apply onlyEmits_call|]. intros newFile.
    apply onlyEmits_bind; [now apply onlyEmits_call|]. intros _.
    now apply onlyEmits_emit.
  - intros e. unfold duplicate_catch.
    apply onlyEmits_bind; [now apply onlyEmits_emit|]. intros _.
    now apply onlyEmits_emit.
Qed.

(** X6.  What the commands never do.  Moving, to a folder or to the
    parent folder, never reads, creates or opens a file: all it adds to
    the trace are notices, console output, a folder creation and a
    rename.  Duplicating never renames, so the active file stays where it
    is. *)
Theorem move_never_copies_duplicate_never_renames
    (fuel : nat) (targetFolder : jsstring) (addPrefix : bool) :
  onlyEmits movesOnly
    (moveCurrentFileToFolder (World := World) targetFolder addPrefix) /\
  onlyEmits movesOnly (moveToParentFolder (World := World)) /\
  onlyEmits renamesNothing
    (duplicateFileToFolder (World := World) fuel targetFolder addPrefix).
Proof.
  split; [apply move_emits|]. split; [|apply duplicate_emits].
  unfold moveToParentFolder.
  apply onlyEmits_bind; [apply onlyEmits_ask|].
  intros [f|]; [|now apply onlyEmits_emit].
  cbv zeta. destruct (JS.strict_eq _ []); apply move_emits.
Qed.

End EmitsOfCommands.

(** ** The commands when all goes well *)

Section Success.

Context {World : Type} `{Host World}.

(** X7.  When the destination is free and the host renames the file, the
    move command makes that one rename and closes with the notice that
    names the file as the host has it after the rename - so with a prefix
    the notice shows the new name - and the target folder, or the vault
    root for the empty target. *)
Theorem move_success
    (s s1 : State World) (f renamed : TAbstractFile)
    (targetFolder : jsstring) (addPrefix : bool) (w : World) :
  getActiveFile (world s) = Some f ->
  isTFile f = true ->
  ensureFolderExists targetFolder s = (Returned tt, s1) ->
  let newPath :=
    newPathIn targetFolder
      (processFilenameWithPrefix (dateNow (world s1)) (name f) addPrefix) in
  getAbstractFileByPath (world s1) newPath = None ->
  renameFile f newPath (world s1) = (Ok renamed, w) ->
  moveCurrentFileToFolder targetFolder addPrefix s
  = (Returned tt,
     after s1 w
       [RenameFile f newPath;
        Notice (str "Moved " ++ quote ++ name renamed ++ quote ++ str " to "
                  ++ match targetFolder with
                     | [] => str "vault root"
                     | _ :: _ => targetFolder
                     end)]).
Proof.
  intros Hactive Hfile Hfolder newPath Hfree Hrename.
  rewrite (move_guarded f _ _ _ Hactive Hfile).
  apply tryCatch_returned.
  rewrite (move_try_after_folder _ _ _ _ _ Hfolder). cbv zeta.
  fold newPath. rewrite Hfree. unfold bind.
  rewrite (call_ok _ _ _ _ _ Hrename), emit_run, after_logged.
  unfold doneNotice, folderLabel, JS.or_else.
  destruct targetFolder; reflexivity.
Qed.

(** X8.  When the loop finds a path and the host creates and opens the
    copy, the duplicate command reads the active file, creates the copy
    with the content it read at the path the loop returned, opens it and
    closes with its notice; and the path it creates at is one the
    existence check rejected, so nothing is overwritten. *)
Theorem duplicate_success
    (fuel : nat) (s s1 : State World) (f newFile : TAbstractFile)
    (targetFolder content newPath : jsstring) (addPrefix : bool)
    (w2 w3 w4 : World) :
  getActiveFile (world s) = Some f ->
  isTFile f = true ->
  ensureFolderExists targetFolder s = (Returned tt, s1) ->
  read f (world s1) = (Ok content, w2) ->
  resolvePath fuel (fun p => nonNull (getAbstractFileByPath w2 p))
    targetFolder (processFilenameWithPrefix (dateNow w2) (name f) addPrefix)
    = Some newPath ->
  create newPath content w2 = (Ok newFile, w3) ->
  openFile newFile w3 = (Ok tt, w4) ->
  duplicateFileToFolder fuel targetFolder addPrefix s
  = (Returned tt,
     after s1 w4
       [Read f; Create newPath content; OpenFile newFile;
        Notice (str "Duplicated " ++ quote ++ name f ++ quote ++ str " to "
                  ++ match targetFolder with
                     | [] => str "vault root"
                     | _ :: _ => targetFolder
                     end)]) /\
  getAbstractFileByPath w2 newPath = None.
Proof.
  intros Hactive Hfile Hfolder Hread Hpath Hcreate Hopen. split.
  - rewrite (duplicate_guarded _ f _ _ _ Hactive Hfile).
    apply tryCatch_returned.
    rewrite (duplicate_try_after_read _ _ _ _ _ _ _ _ Hfolder Hread).
    cbv zeta. rewrite Hpath. unfold bind.
    rewrite (call_ok _ _ (after s1 w2 [Read f]) _ _ Hcreate).
    rewrite (call_ok _ _ (after (after s1 w2 [Read f]) w3 _) _ _ Hopen).
    rewrite emit_run. unfold logged, after. cbn [world trace].
    rewrite <- !app_assoc. cbn [app].
    unfold doneNotice, folderLabel, JS.or_else.
    destruct targetFolder; reflexivity.
  - unfold resolvePath in Hpath.
    destruct (resolveLoop_sound _ _ _ _ _ _ _ _ Hpath) as [Hfree _].
    now destruct (getAbstractFileByPath w2 newPath).
Qed.

(** X9.  On a host whose successful [createFolder] leaves an item at the
    path, a successful [ensureFolderExists] for a non-empty path ends with
    an item at that path, and calling it again makes no host call. *)
Theorem ensureFolderExists_then_exists
    (folderPath : jsstring) (s s1 : State World) :
  (forall p w w',
     createFolder p w = (Ok tt, w') -> getAbstractFileByPath w' p <> None) ->
  folderPath <> [] ->
  ensureFolderExists folderPath s = (Returned tt, s1) ->
  getAbstractFileByPath (world s1) folderPath <> None /\
  ensureFolderExists folderPath s1 = (Returned tt, s1).
Proof.
  intros Hlaw Hne Hrun.
  assert (Hexists : getAbstractFileByPath (world s1) folderPath <> None).
  { destruct (ensureFolderExists_cases folderPath s)
      as [Heq|(_ & Hnone & Heq)]; rewrite Heq in Hrun.
    - injection Hrun as <-.
      unfold ensureFolderExists, bind, ask in Heq.
      destruct folderPath as [|x t]; [congruence|].
      cbn [negb JS.truthy] in Heq. cbv beta iota in Heq.
      destruct (getAbstractFileByPath (world s) (x :: t)) eqn:Hfound;
        [discriminate|].
      unfold call in Heq.
      destruct (createFolder (x :: t) (world s)) as [[[]|e] w] eqn:Hcreate;
        [|discriminate].
      injection Heq as Heq. apply (f_equal (@world World)) in Heq.
      cbn [world] in Heq. subst w. exfalso.
      now apply (Hlaw _ _ _ Hcreate).
    - unfold call in Hrun.
      destruct (createFolder folderPath (world s)) as [[[]|e] w] eqn:Hcreate;
        [|discriminate].
      injection Hrun as <-. cbn [world]. now apply (Hlaw _ _ _ Hcreate). }
  split; [exact Hexists|].
  destruct (ensureFolderExists_cases folderPath s1)
    as [Heq|(_ & Hnone & _)]; [exact Heq | contradiction].
Qed.

(** X10.  [moveToParentFolder] moves the file to the folder above the one
    it is in: for a path [grand/folder/name] the target is [grand], for a
    path [folder/name] it is the vault root; the file name is kept and no
    prefix is added. *)
Theorem moveToParentFolder_goes_up
    (s : State World) (f : TAbstractFile) (grand parent fileName : jsstring) :
  getActiveFile (world s) = Some f ->
  path f = parent ++ "/"%char :: fileName ->
  ~ In "/"%char fileName ->
  ((exists folder,
      parent = grand ++ "/"%char :: folder /\ ~ In "/"%char folder) \/
   (~ In "/"%char parent /\ grand = [])) ->
  moveToParentFolder s = moveCurrentFileToFolder grand false s.
Proof.
  intros Hactive Hpath Hname Hparent.
  unfold moveToParentFolder. unfold bind at 1, ask. rewrite Hactive.
  cbv zeta. rewrite Hpath.
  rewrite (lastIndexOf_app "/"%char parent fileName Hname).
  rewrite substring_prefix.
  assert (Hgrand : JS.substring parent 0 (JS.lastIndexOf parent "/"%char)
                   = grand).
  { destruct Hparent as [(folder & -> & Hfolder)|[Hnone ->]].
    - rewrite (lastIndexOf_app "/"%char grand folder Hfolder).
      apply substring_prefix.
    - rewrite lastIndexOf_notin by exact Hnone.
      apply substring_to_negative. lia. }
  rewrite Hgrand. unfold JS.strict_eq.
  destruct (list_eq_dec ascii_dec grand []) as [->|_]; reflexivity.
Qed.

End Success.

(** ** The in-memory host and the commands on it *)

Lemma strict_eq_refl (a : jsstring) : JS.strict_eq a a = true.
Proof.
  unfold JS.strict_eq. destruct (list_eq_dec ascii_dec a a); congruence.
Qed.

Lemma memVault_lookup_last (p : jsstring) (n : MemVault.Node)
    (l : list (jsstring * MemVault.Node)) :
  MemVault.lookup p (l ++ [(p, n)]) <> None.
Proof.
  induction l as [|[q m] l IH]; simpl.
  - rewrite strict_eq_refl. discriminate.
  - destruct (JS.strict_eq q p); [discriminate | exact IH].
Qed.

(** The in-memory host keeps the law of [createFolder]. *)
Lemma memVault_createFolder_law (p : jsstring) (w w' : MemVault.World) :
  createFolder p w = (Ok tt, w') -> getAbstractFileByPath w' p <> None.
Proof.
  cbn [createFolder getAbstractFileByPath MemVault.host].
  unfold MemVault.mkdir, MemVault.itemAt.
  destruct (MemVault.lookup p (MemVault.nodes w)); [discriminate|].
  intros Heq. injection Heq as <-. cbn [MemVault.nodes MemVault.withNodes].
  pose proof (memVault_lookup_last p MemVault.FolderNode (MemVault.nodes w))
    as Hlast.
  destruct (MemVault.lookup p _) as [[c|]|]; [discriminate.. | contradiction].
Qed.

Lemma move_success_witness :
  let s := MemVault.start MemVault.oneNote in
  let f := MemVault.fileAt (str "note.md") in
  getActiveFile (world s) = Some f /\
  isTFile f = true /\
  fst (ensureFolderExists (str "Archive") s) = Returned tt /\
  trace (snd (moveCurrentFileToFolder (str "Archive") true s))
  = [CreateFolder (str "Archive");
     RenameFile f (str "Archive/8ew44s_note.md");
     Notice (str "Moved " ++ quote ++ str "8ew44s_note.md" ++ quote
               ++ str " to Archive")] /\
  getAbstractFileByPath
    (world (snd (moveCurrentFileToFolder (str "Archive") true s)))
    (str "note.md") = None.
Proof.
  intros s f.
  assert (Hactive : getActiveFile (world s) = Some f) by reflexivity.
  assert (Hfile : isTFile f = true) by reflexivity.
  pose proof (move_success s _ f _ (str "Archive") true _
                Hactive Hfile eq_refl eq_refl eq_refl) as Hrun.
  split; [exact Hactive|]. split; [exact Hfile|]. split; [reflexivity|].
  rewrite Hrun. split; reflexivity.
Defined.

Lemma duplicate_success_witness :
  let s := MemVault.start MemVault.oneNote in
  let f := MemVault.fileAt (str "note.md") in
  getActiveFile (world s) = Some f /\
  read f (world s) = (Ok (str "hello"), world s) /\
  resolvePath 2 (fun p => nonNull (getAbstractFileByPath (world s) p))
    [] (str "note.md") = Some (str "note 1.md") /\
  trace (snd (duplicateFileToFolder 2 [] false s))
  = [Read f;
     Create (str "note 1.md") (str "hello");
     OpenFile (MemVault.fileAt (str "note 1.md"));
     Notice (str "Duplicated " ++ quote ++ str "note.md" ++ quote
               ++ str " to vault root")] /\
  getAbstractFileByPath (world s) (str "note 1.md") = None.
Proof.
  intros s f.
  assert (Hactive : getActiveFile (world s) = Some f) by reflexivity.
  assert (Hread : read f (world s) = (Ok (str "hello"), world s))
    by reflexivity.
  assert (Hpath : resolvePath 2
                    (fun p => nonNull (getAbstractFileByPath (world s) p))
                    [] (str "note.md") = Some (str "note 1.md"))
    by reflexivity.
  destruct (duplicate_success 2 s s f _ [] _ _ false _ _ _
              Hactive eq_refl eq_refl Hread Hpath eq_refl eq_refl)
    as [Hrun Hfree].
  split; [exact Hactive|]. split; [exact Hread|]. split; [exact Hpath|].
  split; [rewrite Hrun; reflexivity | exact Hfree].
Defined.

Lemma ensureFolderExists_then_exists_witness :
  let s := MemVault.start MemVault.oneNote in
  str "Archive" <> [] /\
  fst (ensureFolderExists (str "Archive") s) = Returned tt /\
  getAbstractFileByPath
    (world (snd (ensureFolderExists (str "Archive") s))) (str "Archive")
    <> None /\
  ensureFolderExists (str "Archive")
    (snd (ensureFolderExists (str "Archive") s))
  = (Returned tt, snd (ensureFolderExists (str "Archive") s)).
Proof.
  intros s.
  assert (Hne : str "Archive" <> []) by discriminate.
  split; [exact Hne|]. split; [reflexivity|].
  exact (ensureFolderExists_then_exists (str "Archive") s _
           memVault_createFolder_law Hne eq_refl).
Defined.

Lemma moveToParentFolder_goes_up_witness :
  let s := MemVault.start nestedNote in
  let f := MemVault.fileAt (str "Projects/Work/file.md") in
  getActiveFile (world s) = Some f /\
  path f = str "Projects/Work" ++ "/"%char :: str "file.md" /\
  ~ In "/"%char (str "file.md") /\
  str "Projects/Work" = str "Projects" ++ "/"%char :: str "Work" /\
  ~ In "/"%char (str "Work") /\
  moveToParentFolder s = moveCurrentFileToFolder (str "Projects") false s /\
  trace (snd (moveToParentFolder s))
  = [RenameFile f (str "Projects/file.md");
     Notice (str "Moved " ++ quote ++ str "file.md" ++ quote
               ++ str " to Projects")].
Proof.
  intros s f.
  assert (Hactive : getActiveFile (world s) = Some f) by reflexivity.
  assert (Hpath : path f = str "Projects/Work" ++ "/"%char :: str "file.md")
    by reflexivity.
  assert (Hname : ~ In "/"%char (str "file.md")).
  { simpl. intros Hin.
    repeat (destruct Hin as [Hin|Hin]; [discriminate|]). exact Hin. }
  assert (Hparent : str "Projects/Work"
                    = str "Projects" ++ "/"%char :: str "Work")
    by reflexivity.
  assert (Hfolder : ~ In "/"%char (str "Work")).
  { simpl. intros Hin.
    repeat (destruct Hin as [Hin|Hin]; [discriminate|]). exact Hin. }
  pose proof (moveToParentFolder_goes_up s f (str "Projects")
                (str "Projects/Work") (str "file.md") Hactive Hpath Hname
                (or_introl (ex_intro _ (str "Work") (conj Hparent Hfolder))))
    as Hrun.
  split; [exact Hactive|]. split; [exact Hpath|]. split; [exact Hname|].
  split; [exact Hparent|]. split; [exact Hfolder|].
  split; [exact Hrun | rewrite Hrun; reflexivity].
Defined.

(** ** Menus *)

Lemma strict_eq_true (a b : jsstring) : JS.strict_eq a b = true <-> a = b.
Proof.
  unfold JS.strict_eq. destruct (list_eq_dec ascii_dec a b);
    split; congruence.
Qed.

Lemma strict_eq_false (a b : jsstring) : JS.strict_eq a b = false <-> a <> b.
Proof.
  unfold JS.strict_eq. destruct (list_eq_dec ascii_dec a b);
    split; congruence.
Qed.

(** [find] returns the first mapping with the selected path. *)
Lemma findMapping_first (pre post : list FolderMapping) (m : FolderMapping)
    (selected : FolderEntry) :
  (forall m', In m' pre -> folderPath m' <> entryPath selected) ->
  folderPath m = entryPath selected ->
  findMapping {| folderMappings := pre ++ m :: post |} selected = Some m.
Proof.
  intros Hpre Hm. unfold findMapping. cbn [folderMappings].
  induction pre as [|x pre IH]; cbn [app find].
  - now rewrite (proj2 (strict_eq_true _ _) Hm).
  - rewrite (proj2 (strict_eq_false _ _) (Hpre x (or_introl eq_refl))).
    apply IH. intros m' Hin. apply Hpre. now right.
Qed.

Lemma findMapping_none (settings : QuickMoveSettings)
    (selected : FolderEntry) :
  (forall m, In m (folderMappings settings) ->
     folderPath m <> entryPath selected) ->
  findMapping settings selected = None.
Proof.
  unfold findMapping. intros Hall.
  induction (folderMappings settings) as [|x l IH]; [reflexivity|].
  cbn [find].
  rewrite (proj2 (strict_eq_false _ _) (Hall x (or_introl eq_refl))).
  apply IH. intros m Hin. apply Hall. now right.
Qed.

(** With pairwise distinct folder paths, the mapping found for the path
    of the mapping at [index] is that mapping. *)
Lemma findMapping_nth (mappings : list FolderMapping) :
  NoDup (map folderPath mappings) ->
  forall (index : nat) (m : FolderMapping) (entry : FolderEntry),
    nth_error mappings index = Some m ->
    entryPath entry = folderPath m ->
    findMapping {| folderMappings := mappings |} entry = Some m.
Proof.
  unfold findMapping. cbn [folderMappings].
  induction mappings as [|x l IH]; intros Hnodup index m entry Hnth Hpath.
  - destruct index; discriminate.
  - cbn [map] in Hnodup. inversion Hnodup as [|? ? Hnotin Hrest]; subst.
    cbn [find]. destruct index as [|index]; cbn [nth_error] in Hnth.
    + injection Hnth as ->.
      now rewrite (proj2 (strict_eq_true _ _) (eq_sym Hpath)).
    + assert (Hne : folderPath x <> entryPath entry).
      { rewrite Hpath. intros Heq. apply Hnotin. rewrite Heq.
        apply in_map. eapply nth_error_In. exact Hnth. }
      rewrite (proj2 (strict_eq_false _ _) Hne).
      now apply (IH Hrest index).
Qed.

Section MenuClaims.

Context {World : Type} `{Host World}.

(** X11.  A menu selection is resolved by folder path, and the first
    mapping with that path decides: the move menu then does what the
    command of that mapping does, the duplicate menu duplicates with that
    mapping's prefix flag, whichever entry was clicked.  When no mapping
    has the path, the move menu moves without a prefix. *)
Theorem menu_selection_first_match
    (fuel : nat) (pre post : list FolderMapping) (m : FolderMapping)
    (selected : FolderEntry) :
  (forall m', In m' pre -> folderPath m' <> entryPath selected) ->
  folderPath m = entryPath selected ->
  showMoveMenu_onSelect (World := World) fuel
    {| folderMappings := pre ++ m :: post |} selected
    = folderCallback fuel m /\
  showDuplicateMenu_onSelect (World := World) fuel
    {| folderMappings := pre ++ m :: post |} selected
    = duplicateFileToFolder fuel (folderPath m) (addCepochPrefix m) /\
  showMoveMenu_onSelect (World := World) fuel
    {| folderMappings := pre |} selected
    = moveCurrentFileToFolder (entryPath selected) false.
Proof.
  intros Hpre Hm.
  pose proof (findMapping_first pre post m selected Hpre Hm) as Hfind.
  unfold showMoveMenu_onSelect, showDuplicateMenu_onSelect, folderCallback.
  cbv zeta. rewrite Hfind. cbn [flagOrFalse]. rewrite Hm.
  split; [reflexivity|]. split; [reflexivity|].
  rewrite (findMapping_none {| folderMappings := pre |} selected Hpre).
  reflexivity.
Qed.

(** X12.  When the folder paths of the mappings are pairwise distinct and
    none is empty, the move menu lists the vault root and then the
    mappings in order; the first entry moves the file to the root without
    a prefix, and the entry of a mapping does what that mapping's command
    does. *)
Theorem move_menu_entries
    (fuel : nat) (settings : QuickMoveSettings) (s : State World)
    (f : TAbstractFile) :
  getActiveFile (world s) = Some f ->
  NoDup (map folderPath (folderMappings settings)) ->
  (forall m, In m (folderMappings settings) -> folderPath m <> []) ->
  exists modal,
    showMoveMenu fuel settings s = ((Returned tt, s), Some modal) /\
    clickItem modal 0 = moveCurrentFileToFolder [] false /\
    (forall index m,
       nth_error (folderMappings settings) index = Some m ->
       clickItem modal (S index) = folderCallback fuel m) /\
    clickItem modal (S (List.length (folderMappings settings))) = ret tt.
Proof.
  intros Hactive Hnodup Hnonempty. destruct settings as [mappings].
  cbn [folderMappings] in *.
  eexists. unfold showMoveMenu. rewrite Hactive. cbv zeta.
  split; [reflexivity|]. cbn [clickItem nth_error]. split; [|split].
  - unfold showMoveMenu_onSelect. cbv zeta.
    rewrite findMapping_none; [reflexivity|].
    cbn [folderMappings entryPath]. exact Hnonempty.
  - intros index m Hnth. unfold menuEntries. cbn [folderMappings].
    rewrite (map_nth_error _ _ _ Hnth).
    unfold showMoveMenu_onSelect, folderCallback. cbv zeta.
    erewrite findMapping_nth; [reflexivity | exact Hnodup | exact Hnth|].
    reflexivity.
  - unfold menuEntries. cbn [folderMappings].
    assert (Hout : nth_error
                     (map (fun mapping =>
                             {| entryName :=
                                  folderIcon ++ str " " ++ displayName mapping;
                                entryPath := folderPath mapping |}) mappings)
                     (List.length mappings) = None).
    { apply nth_error_None. rewrite length_map. lia. }
    now rewrite Hout.
Qed.

(** X13.  The duplicate menu lists the mappings only, without the vault
    root; with pairwise distinct folder paths the entry of a mapping
    duplicates into that mapping's folder with its prefix flag, whatever
    its copy flag says, and so never renames the active file. *)
Theorem duplicate_menu_entries
    (fuel : nat) (settings : QuickMoveSettings) (s : State World)
    (f : TAbstractFile) :
  getActiveFile (world s) = Some f ->
  NoDup (map folderPath (folderMappings settings)) ->
  exists modal,
    showDuplicateMenu fuel settings s = ((Returned tt, s), Some modal) /\
    (forall index m,
       nth_error (folderMappings settings) index = Some m ->
       clickItem modal index
       = duplicateFileToFolder fuel (folderPath m) (addCepochPrefix m)) /\
    (forall index, onlyEmits renamesNothing (clickItem modal index)).
Proof.
  intros Hactive Hnodup. destruct settings as [mappings].
  cbn [folderMappings] in *.
  eexists. unfold showDuplicateMenu. rewrite Hactive.
  split; [reflexivity|]. cbn [clickItem]. split.
  - intros index m Hnth. unfold menuEntries. cbn [folderMappings].
    rewrite (map_nth_error _ _ _ Hnth).
    unfold showDuplicateMenu_onSelect. cbv zeta.
    erewrite findMapping_nth; [reflexivity | exact Hnodup | exact Hnth|].
    reflexivity.
  - intros index.
    destruct (nth_error (menuEntries {| folderMappings := mappings |}) index)
      as [entry|]; [apply duplicate_emits | apply onlyEmits_ret].
Qed.

End MenuClaims.

(** ** Command registration and the settings tab *)

Lemma addedIds_app (l1 l2 : list RegistryCall) :
  addedIds (l1 ++ l2) = addedIds l1 ++ addedIds l2.
Proof.
  induction l1 as [|[fullId|i n cb] l1 IH]; cbn [app addedIds];
    [reflexivity | exact IH | now rewrite IH].
Qed.

Lemma addedIds_register (manifestId : jsstring)
    (settings : QuickMoveSettings) :
  addedIds (registerFolderCommands manifestId settings)
  = map folderCommandId (folderMappings settings).
Proof.
  unfold registerFolderCommands. rewrite addedIds_app.
  assert (Hremoved : forall l : list FolderMapping,
             addedIds (map (fun mapping =>
                              RemoveCommand
                                (removedCommandId manifestId mapping)) l)
             = []).
  { induction l as [|m l IH]; [reflexivity | exact IH]. }
  rewrite Hremoved. cbn [app].
  induction (folderMappings settings) as [|m l IH]; [reflexivity|].
  cbn [map addedIds]. now rewrite IH.
Qed.

Lemma folderCommandId_inj (m1 m2 : FolderMapping) :
  folderCommandId m1 = folderCommandId m2 -> id m1 = id m2.
Proof. unfold folderCommandId. apply app_inv_head. Qed.

Lemma removedCommandId_inj (manifestId : jsstring) (m1 m2 : FolderMapping) :
  removedCommandId manifestId m1 = removedCommandId manifestId m2 ->
  id m1 = id m2.
Proof.
  unfold removedCommandId. intros Heq.
  now do 2 apply app_inv_head in Heq.
Qed.

(** X14.  When the mapping ids are pairwise distinct and none of them is
    [root], [parent] or [new-folder], the commands registered on load -
    one per mapping, then the five utility commands - all have different
    ids: no command takes the place of another. *)
Theorem onload_command_ids_distinct
    (manifestId : jsstring) (settings : QuickMoveSettings) :
  NoDup (map id (folderMappings settings)) ->
  (forall m, In m (folderMappings settings) ->
     ~ In (id m) [str "root"; str "parent"; str "new-folder"]) ->
  NoDup (addedIds (onload_registrations manifestId settings)).
Proof.
  intros Hnodup Hshape. unfold onload_registrations.
  rewrite addedIds_app, addedIds_register.
  apply NoDup_app.
  - clear Hshape. induction (folderMappings settings) as [|m l IH];
      cbn [map]; [constructor|].
    inversion Hnodup as [|? ? Hnotin Hrest]; subst.
    constructor; [|now apply IH].
    intros Hin. apply in_map_iff in Hin. destruct Hin as (m' & Heq & Hin).
    apply Hnotin. rewrite <- (folderCommandId_inj _ _ Heq).
    now apply in_map.
  - cbn [addUtilityCommands addedIds].
    repeat constructor; cbn [In]; intros Hin;
      repeat (destruct Hin as [Hin|Hin]; [discriminate|]); exact Hin.
  - intros i Hin Hutil. apply in_map_iff in Hin.
    destruct Hin as (m & <- & Hm). specialize (Hshape m Hm).
    cbn [addUtilityCommands addedIds In] in Hutil.
    unfold folderCommandId in Hutil.
    destruct Hutil as [Hu|[Hu|[Hu|[Hu|[Hu|[]]]]]];
      try discriminate;
      apply (app_inv_head (str "move-to-")) in Hu;
      apply Hshape; cbn [In]; auto.
Qed.

Lemma onload_command_ids_distinct_witness :
  NoDup (map id (folderMappings DEFAULT_SETTINGS)) /\
  (forall m, In m (folderMappings DEFAULT_SETTINGS) ->
     ~ In (id m) [str "root"; str "parent"; str "new-folder"]) /\
  NoDup (addedIds (onload_registrations (str "quick-move") DEFAULT_SETTINGS)) /\
  List.length (addedIds (onload_registrations (str "quick-move")
                           DEFAULT_SETTINGS)) = 11%nat.
Proof.
  assert (Hnodup : NoDup (map id (folderMappings DEFAULT_SETTINGS))).
  { cbn. repeat constructor; cbn [In]; intros Hin;
      repeat (destruct Hin as [Hin|Hin]; [discriminate|]); exact Hin. }
  assert (Hshape : forall m, In m (folderMappings DEFAULT_SETTINGS) ->
            ~ In (id m) [str "root"; str "parent"; str "new-folder"]).
  { intros m Hm Hin. cbn in Hm.
    repeat (destruct Hm as [<-|Hm];
            [cbn in Hin;
             repeat (destruct Hin as [Hin|Hin]; [discriminate|]);
             exact Hin|]).
    exact Hm. }
  split; [exact Hnodup|]. split; [exact Hshape|].
  split; [|reflexivity].
  exact (onload_command_ids_distinct (str "quick-move") DEFAULT_SETTINGS
           Hnodup Hshape).
Defined.

Lemma newMappingId_inj (t1 t2 : N) :
  newMappingId t1 = newMappingId t2 -> t1 = t2.
Proof.
  unfold newMappingId, JS.numberToString. intros Heq.
  apply app_inv_head in Heq. apply (toString_inj 10); [lia | exact Heq].
Qed.

(** An id made by "Add Folder" is no default id and none of the three
    names the utility commands use. *)
Lemma newMappingId_shape (t : N) :
  ~ In (newMappingId t) (map id (folderMappings DEFAULT_SETTINGS)) /\
  ~ In (newMappingId t) [str "root"; str "parent"; str "new-folder"].
Proof.
  unfold newMappingId. split; cbn; intros Hin;
    repeat (destruct Hin as [Hin|Hin]; [discriminate|]); exact Hin.
Qed.

Lemma map_id_changeMapping (change : FolderMapping -> FolderMapping)
    (index : nat) (mappings : list FolderMapping) :
  (forall m, id (change m) = id m) ->
  map id (changeMapping change index mappings) = map id mappings.
Proof.
  intros Hid. revert index.
  induction mappings as [|m l IH]; intros [|index]; cbn [changeMapping map];
    try reflexivity.
  - now rewrite Hid.
  - now rewrite IH.
Qed.

Lemma map_id_deleteFolder_incl (index : nat) (mappings : list FolderMapping) :
  incl (map id (deleteFolder index mappings)) (map id mappings).
Proof.
  revert index. induction mappings as [|m l IH]; intros [|index];
    cbn [deleteFolder map]; try apply incl_refl.
  - apply incl_tl, incl_refl.
  - apply incl_cons; [now left | apply incl_tl, IH].
Qed.

Lemma map_id_deleteFolder_nodup (index : nat)
    (mappings : list FolderMapping) :
  NoDup (map id mappings) -> NoDup (map id (deleteFolder index mappings)).
Proof.
  revert index. induction mappings as [|m l IH]; intros [|index] Hnodup;
    cbn [deleteFolder map] in *; try assumption;
    inversion Hnodup as [|? ? Hnotin Hrest]; subst; [assumption|].
  constructor; [|now apply IH].
  intros Hin. apply Hnotin. now apply (map_id_deleteFolder_incl index l).
Qed.

(** The mapping deleted at [index] is gone, id and all, when the ids were
    pairwise distinct. *)
Lemma deleteFolder_removes_id (index : nat) (mappings : list FolderMapping)
    (m : FolderMapping) :
  NoDup (map id mappings) ->
  nth_error mappings index = Some m ->
  ~ In (id m) (map id (deleteFolder index mappings)).
Proof.
  revert index. induction mappings as [|x l IH]; intros [|index] Hnodup Hnth;
    cbn [nth_error deleteFolder map] in *; try discriminate;
    inversion Hnodup as [|? ? Hnotin Hrest]; subst.
  - now injection Hnth as ->.
  - intros [Heq|Hin].
    + apply Hnotin. rewrite Heq. apply in_map.
      eapply nth_error_In. exact Hnth.
    + now apply (IH index Hrest Hnth).
Qed.

(** The invariant of the settings tab: the ids are pairwise distinct, and
    each is a default id or the id made at one of the clock readings
    [times]. *)
Lemma applyEdit_keeps_ids (edit : SettingsEdit)
    (mappings : list FolderMapping) (times : list N) :
  NoDup (map id mappings) ->
  (forall i, In i (map id mappings) ->
     In i (map id (folderMappings DEFAULT_SETTINGS)) \/
     exists t, In t times /\ i = newMappingId t) ->
  (forall t, In t (addTimes [edit]) -> ~ In t times) ->
  NoDup (map id (applyEdit mappings edit)) /\
  (forall i, In i (map id (applyEdit mappings edit)) ->
     In i (map id (folderMappings DEFAULT_SETTINGS)) \/
     exists t, In t (addTimes [edit] ++ times) /\ i = newMappingId t).
Proof.
  intros Hnodup Hshape Hfresh.
  destruct edit as [now|index v|index v|index v|index v|index];
    cbn [applyEdit addTimes app];
    try (rewrite map_id_changeMapping by reflexivity; now split).
  - unfold addFolder. rewrite map_app. cbn [map id]. split.
    + apply NoDup_app; [exact Hnodup | repeat constructor; intros [] |].
      intros i Hin [<-|[]].
      destruct (Hshape _ Hin) as [Hdefault|(t & Ht & Heq)].
      * now apply (proj1 (newMappingId_shape now)).
      * apply newMappingId_inj in Heq. subst t.
        apply (Hfresh now); [now left | exact Ht].
    + intros i Hin. apply in_app_or in Hin. destruct Hin as [Hin|[<-|[]]].
      * destruct (Hshape _ Hin) as [Hdefault|(t & Ht & Heq)];
          [now left | right; exists t; split; [now right | exact Heq]].
      * right. exists now. split; [now left | reflexivity].
  - split; [now apply map_id_deleteFolder_nodup|].
    intros i Hin. apply Hshape.
    now apply (map_id_deleteFolder_incl index mappings).
Qed.

Lemma NoDup_app_disjoint {A} (l1 l2 : list A) (a : A) :
  NoDup (l1 ++ l2) -> In a l1 -> ~ In a l2.
Proof.
  induction l1 as [|x l1 IH]; intros Hnodup Hin; [destruct Hin|].
  cbn [app] in Hnodup. inversion Hnodup as [|? ? Hnotin Hrest]; subst.
  destruct Hin as [->|Hin]; [|now apply IH].
  intros Hin2. apply Hnotin. apply in_or_app. now right.
Qed.

Lemma applyEdits_keeps_ids (edits : list SettingsEdit) :
  forall (mappings : list FolderMapping) (times : list N),
    NoDup (map id mappings) ->
    (forall i, In i (map id mappings) ->
       In i (map id (folderMappings DEFAULT_SETTINGS)) \/
       exists t, In t times /\ i = newMappingId t) ->
    NoDup (addTimes edits) ->
    (forall t, In t (addTimes edits) -> ~ In t times) ->
    NoDup (map id (applyEdits edits mappings)) /\
    (forall i, In i (map id (applyEdits edits mappings)) ->
       In i (map id (folderMappings DEFAULT_SETTINGS)) \/
       exists t, i = newMappingId t).
Proof.
  induction edits as [|edit edits IH];
    intros mappings times Hnodup Hshape Htimes Hfresh.
  - split; [exact Hnodup|]. intros i Hin.
    destruct (Hshape i Hin) as [Hd|(t & _ & Heq)]; [now left | right; eauto].
  - cbn [applyEdits fold_left].
    assert (Hsplit : addTimes (edit :: edits)
                     = addTimes [edit] ++ addTimes edits).
    { destruct edit; cbn [addTimes app]; reflexivity. }
    rewrite Hsplit in Htimes, Hfresh.
    destruct (applyEdit_keeps_ids edit mappings times Hnodup Hshape)
      as [Hnodup' Hshape'].
    { intros t Ht. apply Hfresh. apply in_or_app. now left. }
    apply (IH (applyEdit mappings edit) (addTimes [edit] ++ times)
             Hnodup' Hshape').
    + now apply NoDup_app_remove_l in Htimes.
    + intros t Ht Hin. apply in_app_or in Hin. destruct Hin as [Hin|Hin].
      * now apply (NoDup_app_disjoint _ _ t Htimes Hin).
      * apply (Hfresh t); [apply in_or_app; now right | exact Hin].
Qed.

(** X15.  Starting from the default settings, whatever is added, changed
    and deleted in the settings tab, the mapping ids stay pairwise
    distinct and away from [root], [parent] and [new-folder], as long as
    no two "Add Folder" clicks read the same clock value. *)
Theorem mapping_ids_stay_unique (edits : list SettingsEdit) :
  NoDup (addTimes edits) ->
  NoDup (map id (applyEdits edits (folderMappings DEFAULT_SETTINGS))) /\
  (forall m,
     In m (applyEdits edits (folderMappings DEFAULT_SETTINGS)) ->
     ~ In (id m) [str "root"; str "parent"; str "new-folder"]).
Proof.
  intros Htimes.
  destruct (applyEdits_keeps_ids edits (folderMappings DEFAULT_SETTINGS) [])
    as [Hnodup Hshape].
  - cbn. repeat constructor; cbn [In]; intros Hin;
      repeat (destruct Hin as [Hin|Hin]; [discriminate|]); exact Hin.
  - intros i Hin. now left.
  - exact Htimes.
  - intros t _ [].
  - split; [exact Hnodup|]. intros m Hm.
    destruct (Hshape (id m) (in_map id _ _ Hm)) as [Hdefault|(t & ->)].
    + intros Hin. cbn in Hdefault.
      repeat (destruct Hdefault as [Hd|Hdefault];
              [rewrite <- Hd in Hin; cbn in Hin;
               repeat (destruct Hin as [Hin|Hin]; [discriminate|]);
               exact Hin|]).
      exact Hdefault.
    + apply (proj2 (newMappingId_shape t)).
Qed.

Lemma mapping_ids_stay_unique_witness :
  let edits :=
    [AddFolder 1700000000123;
     SetFolderPath 6 (str "Notes/Old");
     SetCopyInsteadOfMove 6 true;
     DeleteFolder 0;
     AddFolder 1700000000124] in
  NoDup (addTimes edits) /\
  map id (applyEdits edits (folderMappings DEFAULT_SETTINGS))
  = [str "inbox"; str "projects"; str "daily-notes"; str "templates";
     str "resources"; str "folder-1700000000123";
     str "folder-1700000000124"] /\
  NoDup (map id (applyEdits edits (folderMappings DEFAULT_SETTINGS))).
Proof.
  intros edits.
  assert (Htimes : NoDup (addTimes edits)).
  { cbn. repeat constructor; cbn [In]; intros Hin;
      repeat (destruct Hin as [Hin|Hin]; [discriminate|]); exact Hin. }
  split; [exact Htimes|]. split; [reflexivity|].
  exact (proj1 (mapping_ids_stay_unique edits Htimes)).
Defined.

(** X16.  Deleting a mapping leaves its command behind: the registration
    that follows the deletion neither removes the command of the deleted
    mapping nor adds one under its id, so what was registered for it
    before stays registered. *)
Theorem deleted_mapping_keeps_command
    (manifestId : jsstring) (mappings : list FolderMapping)
    (index : nat) (m : FolderMapping) :
  NoDup (map id mappings) ->
  nth_error mappings index = Some m ->
  In (AddCommand (folderCommandId m)
        (str "Move current file to " ++ displayName m) (FolderCallback m))
     (registerFolderCommands manifestId {| folderMappings := mappings |}) /\
  ~ In (RemoveCommand (removedCommandId manifestId m))
       (registerFolderCommands manifestId
          {| folderMappings := deleteFolder index mappings |}) /\
  ~ In (folderCommandId m)
       (addedIds
          (registerFolderCommands manifestId
             {| folderMappings := deleteFolder index mappings |})).
Proof.
  intros Hnodup Hnth.
  pose proof (deleteFolder_removes_id index mappings m Hnodup Hnth) as Hgone.
  split; [|split].
  - unfold registerFolderCommands. cbn [folderMappings].
    apply in_or_app. right.
    apply (in_map (fun mapping =>
                     AddCommand (folderCommandId mapping)
                       (str "Move current file to " ++ displayName mapping)
                       (FolderCallback mapping))).
    eapply nth_error_In. exact Hnth.
  - unfold registerFolderCommands. cbn [folderMappings]. intros Hin.
    apply in_app_or in Hin. destruct Hin as [Hin|Hin];
      apply in_map_iff in Hin; destruct Hin as (m' & Heq & Hm');
      [|discriminate].
    injection Heq as Heq. apply removedCommandId_inj in Heq.
    apply Hgone. rewrite <- Heq. now apply in_map.
  - rewrite addedIds_register. cbn [folderMappings]. intros Hin.
    apply in_map_iff in Hin. destruct Hin as (m' & Heq & Hm').
    apply folderCommandId_inj in Heq.
    apply Hgone. rewrite <- Heq. now apply in_map.
Qed.

Lemma deleted_mapping_keeps_command_witness :
  let mappings := folderMappings DEFAULT_SETTINGS in
  let m := plainMapping "inbox" "Inbox" "Inbox" in
  NoDup (map id mappings) /\
  nth_error mappings 1 = Some m /\
  In (AddCommand (str "move-to-inbox") (str "Move current file to Inbox")
        (FolderCallback m))
     (registerFolderCommands (str "quick-move")
        {| folderMappings := mappings |}) /\
  ~ In (RemoveCommand (str "quick-move:move-to-inbox"))
       (registerFolderCommands (str "quick-move")
          {| folderMappings := deleteFolder 1 mappings |}).
Proof.
  intros mappings m.
  assert (Hnodup : NoDup (map id mappings)).
  { cbn. repeat constructor; cbn [In]; intros Hin;
      repeat (destruct Hin as [Hin|Hin]; [discriminate|]); exact Hin. }
  assert (Hnth : nth_error mappings 1 = Some m) by reflexivity.
  destruct (deleted_mapping_keeps_command (str "quick-move") mappings 1 m
              Hnodup Hnth) as (Hadded & Hkept & _).
  exact (conj Hnodup (conj Hnth (conj Hadded Hkept))).
Defined.

(** ** Trimming and the new-folder prompt *)

Lemma stripPrefix_app (p rest : jsstring) :
  stripPrefix p (p ++ rest) = Some rest.
Proof.
  induction p as [|c p IH]; [reflexivity|].
  cbn [app stripPrefix]. now rewrite Ascii.eqb_refl.
Qed.

Lemma stripFirst_none (table : list jsstring) (s : jsstring) :
  (forall p, In p table -> stripPrefix p s = None) ->
  stripFirst table s = None.
Proof.
  induction table as [|p table IH]; intros Hall; [reflexivity|].
  cbn [stripFirst]. rewrite (Hall p (or_introl eq_refl)).
  apply IH. intros q Hq. apply Hall. now right.
Qed.

(** No white space character is the beginning of another, and none is the
    end of another: a string that starts with one starts with no other. *)
Lemma whiteSpace_first (p rest : jsstring) :
  In p whiteSpace -> stripFirst whiteSpace (p ++ rest) = Some rest.
Proof.
  intros Hin. cbn in Hin.
  repeat (destruct Hin as [<-|Hin]; [reflexivity|]). destruct Hin.
Qed.

Lemma whiteSpace_last (p rest : jsstring) :
  In p (map (@rev ascii) whiteSpace) ->
  stripFirst (map (@rev ascii) whiteSpace) (p ++ rest) = Some rest.
Proof.
  intros Hin. cbn in Hin.
  repeat (destruct Hin as [<-|Hin]; [reflexivity|]). destruct Hin.
Qed.

Lemma whiteSpace_nonempty (p : jsstring) : In p whiteSpace -> p <> [].
Proof.
  intros Hin. cbn in Hin.
  repeat (destruct Hin as [<-|Hin]; [discriminate|]). destruct Hin.
Qed.

(** A run of table entries in front of a string that starts with none is
    taken off whole, given fuel for each entry. *)
Lemma stripLeading_run (table : list jsstring) :
  (forall p rest, In p table -> stripFirst table (p ++ rest) = Some rest) ->
  forall (chars : list jsstring) (x : jsstring) (fuel : nat),
    Forall (fun c => In c table) chars ->
    stripFirst table x = None ->
    (List.length chars <= fuel)%nat ->
    stripLeading table fuel (List.concat chars ++ x) = x.
Proof.
  intros Hfirst chars x. induction chars as [|c chars IH];
    intros fuel Hall Hclean Hfuel.
  - cbn [List.concat app]. destruct fuel; cbn [stripLeading];
      [reflexivity | now rewrite Hclean].
  - inversion Hall as [|? ? Hc Hrest]; subst.
    destruct fuel as [|fuel]; [cbn in Hfuel; lia|].
    cbn [List.concat stripLeading]. rewrite <- app_assoc.
    rewrite (Hfirst c _ Hc). apply IH; [exact Hrest | exact Hclean|].
    cbn in Hfuel. lia.
Qed.

Lemma concat_length_entries {A} (chars : list (list A)) :
  Forall (fun c => c <> []) chars ->
  (List.length chars <= List.length (List.concat chars))%nat.
Proof.
  induction 1 as [|c chars Hc _ IH]; [reflexivity|].
  cbn [List.concat List.length]. rewrite length_app.
  destruct c; [congruence | cbn [List.length]; lia].
Qed.

Lemma rev_concat {A} (chars : list (list A)) :
  rev (List.concat chars) = List.concat (rev (map (@rev A) chars)).
Proof.
  induction chars as [|c chars IH]; [reflexivity|].
  cbn [List.concat map rev]. rewrite rev_app_distr, IH, concat_app.
  cbn [List.concat]. now rewrite app_nil_r.
Qed.

Lemma blank_length (chars : list jsstring) :
  Forall (fun c => In c whiteSpace) chars ->
  (List.length chars <= List.length (List.concat chars))%nat.
Proof.
  intros Hall. apply concat_length_entries.
  eapply Forall_impl; [|exact Hall]. apply whiteSpace_nonempty.
Qed.

(** A blank string trims to the empty string. *)
Lemma trim_blank (s : jsstring) : blank s -> trim s = [].
Proof.
  intros (chars & Hall & ->). unfold trim, trimStart.
  pose proof (stripLeading_run whiteSpace
                (fun p rest H => whiteSpace_first p rest H)
                chars [] (List.length (List.concat chars)) Hall eq_refl
                (blank_length chars Hall)) as Hrun.
  rewrite app_nil_r in Hrun. now rewrite Hrun.
Qed.

(** Trimming takes the white space off both ends and nothing else. *)
Lemma trim_core (before after_ core : jsstring) :
  blank before -> blank after_ ->
  startsClean core -> endsClean core ->
  trim (before ++ core ++ after_) = core.
Proof.
  intros (cb & Hcb & ->) (ca & Hca & ->) Hstart Hend.
  unfold trim, trimStart.
  rewrite (stripLeading_run whiteSpace
             (fun p rest H => whiteSpace_first p rest H)
             cb (core ++ List.concat ca)); [|exact Hcb| |].
  - unfold trimEnd. rewrite rev_app_distr, rev_concat.
    rewrite (stripLeading_run (map (@rev ascii) whiteSpace)
               (fun p rest H => whiteSpace_last p rest H)
               (rev (map (@rev ascii) ca)) (rev core)).
    + apply rev_involutive.
    + apply Forall_rev. apply Forall_forall. intros c Hc.
      apply in_map_iff in Hc. destruct Hc as (c' & <- & Hc').
      apply in_map. rewrite Forall_forall in Hca. now apply Hca.
    + apply stripFirst_none. intros p Hp.
      apply in_map_iff in Hp. destruct Hp as (p' & <- & Hp').
      specialize (Hend p' [] Hp'). now rewrite app_nil_r in Hend.
    + rewrite length_rev, length_map, length_app.
      etransitivity; [exact (blank_length ca Hca) | apply Nat.le_add_l].
  - apply stripFirst_none. intros p Hp. now apply Hstart.
  - rewrite length_app.
    etransitivity; [exact (blank_length cb Hcb) | apply Nat.le_add_r].
Qed.

Lemma startsClean_nonempty (core : jsstring) : startsClean core -> core <> [].
Proof.
  intros Hstart ->.
  specialize (Hstart (bytes [32]%nat) (bytes [32]%nat) ltac:(cbn; auto 8)).
  discriminate.
Qed.

Lemma blank_app (a b : jsstring) : blank a -> blank b -> blank (a ++ b).
Proof.
  intros (ca & Hca & ->) (cb & Hcb & ->). exists (ca ++ cb).
  split; [now apply Forall_app | now rewrite concat_app].
Qed.

Section NewFolder.

Context {World : Type} `{Host World}.

(** X17.  The new-folder prompt: submitting nothing but white space does
    nothing at all, not even a notice; submitting a name with white space
    around it moves the file to the folder called by the name without
    that white space, with no prefix. *)
Theorem moveToNewFolder_submit
    (s : State World) (f : TAbstractFile) (before after_ core : jsstring) :
  getActiveFile (world s) = Some f ->
  blank before ->
  blank after_ ->
  startsClean core ->
  endsClean core ->
  exists modal,
    moveToNewFolder s = ((Returned tt, s), Some modal) /\
    submitText modal (before ++ after_) s = (Returned tt, s) /\
    submitText modal (before ++ core ++ after_)
      = moveCurrentFileToFolder core false.
Proof.
  intros Hactive Hbefore Hafter Hstart Hend.
  eexists. unfold moveToNewFolder. rewrite Hactive.
  split; [reflexivity|]. cbn [submitText].
  unfold moveToNewFolder_onSubmit. split.
  - rewrite trim_blank; [reflexivity | now apply blank_app].
  - rewrite (trim_core before after_ core Hbefore Hafter Hstart Hend).
    pose proof (startsClean_nonempty core Hstart) as Hne.
    destruct core; [congruence | reflexivity].
Qed.

End NewFolder.

(** On the text [Gia] with a grave accent on the [a] (its last byte is
    160), between two spaces and an ideographic space with a tab. *)
Lemma moveToNewFolder_submit_witness :
  let s := MemVault.start MemVault.oneNote in
  let f := MemVault.fileAt (str "note.md") in
  let before := str "  " in
  let after_ := bytes [227; 128; 128; 9]%nat in
  let core := bytes [71; 105; 195; 160]%nat in
  blank before /\ blank after_ /\ startsClean core /\ endsClean core /\
  trim (before ++ core ++ after_) = core /\
  exists modal,
    moveToNewFolder s = ((Returned tt, s), Some modal) /\
    submitText modal (before ++ after_) s = (Returned tt, s) /\
    trace (snd (submitText modal (before ++ core ++ after_) s))
    = [CreateFolder core;
       RenameFile f (core ++ str "/note.md");
       Notice (str "Moved " ++ quote ++ str "note.md" ++ quote
                 ++ str " to " ++ core)].
Proof.
  intros s f before after_ core.
  assert (Hactive : getActiveFile (world s) = Some f) by reflexivity.
  assert (Hbefore : blank before).
  { exists [bytes [32]%nat; bytes [32]%nat].
    split; [|reflexivity].
    repeat (apply Forall_cons;
            [cbn; repeat (first [left; reflexivity | right])|]).
    apply Forall_nil. }
  assert (Hafter : blank after_).
  { exists [bytes [227; 128; 128]%nat; bytes [9]%nat].
    split; [|reflexivity].
    repeat (apply Forall_cons;
            [cbn; repeat (first [left; reflexivity | right])|]).
    apply Forall_nil. }
  assert (Hstart : startsClean core).
  { intros p x Hin. cbn in Hin.
    repeat (destruct Hin as [<-|Hin]; [reflexivity|]). destruct Hin. }
  assert (Hend : endsClean core).
  { intros p x Hin. cbn in Hin.
    repeat (destruct Hin as [<-|Hin]; [reflexivity|]). destruct Hin. }
  destruct (moveToNewFolder_submit s f before after_ core
              Hactive Hbefore Hafter Hstart Hend)
    as (modal & Hopen & Hblank & Hname).
  split; [exact Hbefore|]. split; [exact Hafter|].
  split; [exact Hstart|]. split; [exact Hend|].
  split; [reflexivity|].
  exists modal. split; [exact Hopen|]. split; [exact Hblank|].
  rewrite Hname. reflexivity.
Defined.

(** ** The menus on concrete settings *)

Lemma menu_selection_first_match_witness :
  let s := MemVault.start MemVault.oneNote in
  let root := {| entryName := houseIcon ++ str " Vault Root";
                 entryPath := [] |} in
  List.length (folderMappings withBlankCopy) = 7%nat /\
  showMoveMenu_onSelect 2 withBlankCopy root
    = duplicateFileToFolder 2 [] false /\
  trace (snd (showMoveMenu_onSelect 2 withBlankCopy root s))
  = [Read (MemVault.fileAt (str "note.md"));
     Create (str "note 1.md") (str "hello");
     OpenFile (MemVault.fileAt (str "note 1.md"));
     Notice (str "Duplicated " ++ quote ++ str "note.md" ++ quote
               ++ str " to vault root")].
Proof.
  intros s root.
  destruct (menu_selection_first_match (World := MemVault.World) 2
              (folderMappings DEFAULT_SETTINGS) []
              {| id := newMappingId 1700000000123; folderPath := [];
                 displayName := []; addCepochPrefix := false;
                 copyInsteadOfMove := true |} root)
    as (Hmove & _ & _).
  - intros m' Hin.
    cbn in Hin.
    repeat (destruct Hin as [<-|Hin]; [discriminate|]). destruct Hin.
  - reflexivity.
  - split; [reflexivity|]. split; [exact Hmove | reflexivity].
Defined.

Lemma move_menu_entries_witness :
  let s := MemVault.start MemVault.oneNote in
  NoDup (map folderPath (folderMappings DEFAULT_SETTINGS)) /\
  exists modal,
    showMoveMenu 2 DEFAULT_SETTINGS s = ((Returned tt, s), Some modal) /\
    clickItem modal 1
    = folderCallback 2 (plainMapping "archive" "Archive" "Archive") /\
    trace (snd (clickItem modal 1 s))
    = [CreateFolder (str "Archive");
       RenameFile (MemVault.fileAt (str "note.md")) (str "Archive/note.md");
       Notice (str "Moved " ++ quote ++ str "note.md" ++ quote
                 ++ str " to Archive")].
Proof.
  intros s.
  assert (Hnodup : NoDup (map folderPath (folderMappings DEFAULT_SETTINGS))).
  { cbn. repeat constructor; cbn [In]; intros Hin;
      repeat (destruct Hin as [Hin|Hin]; [discriminate|]); exact Hin. }
  assert (Hnonempty : forall m, In m (folderMappings DEFAULT_SETTINGS) ->
                                folderPath m <> []).
  { intros m Hin. cbn in Hin.
    repeat (destruct Hin as [<-|Hin]; [discriminate|]). destruct Hin. }
  assert (Hactive : getActiveFile (world s)
                    = Some (MemVault.fileAt (str "note.md"))) by reflexivity.
  destruct (move_menu_entries 2 DEFAULT_SETTINGS s _ Hactive Hnodup Hnonempty)
    as (modal & Hopen & _ & Hentry & _).
  split; [exact Hnodup|]. exists modal. split; [exact Hopen|].
  pose proof (Hentry 0%nat _ eq_refl) as Hclick.
  split; [exact Hclick | rewrite Hclick; reflexivity].
Defined.

Lemma duplicate_menu_entries_witness :
  let s := MemVault.start MemVault.oneNote in
  NoDup (map folderPath (folderMappings DEFAULT_SETTINGS)) /\
  exists modal,
    showDuplicateMenu 2 DEFAULT_SETTINGS s = ((Returned tt, s), Some modal) /\
    clickItem modal 1 = duplicateFileToFolder 2 (str "Inbox") false.
Proof.
  intros s.
  assert (Hnodup : NoDup (map folderPath (folderMappings DEFAULT_SETTINGS))).
  { cbn. repeat constructor; cbn [In]; intros Hin;
      repeat (destruct Hin as [Hin|Hin]; [discriminate|]); exact Hin. }
  assert (Hactive : getActiveFile (world s)
                    = Some (MemVault.fileAt (str "note.md"))) by reflexivity.
  destruct (duplicate_menu_entries 2 DEFAULT_SETTINGS s _ Hactive Hnodup)
    as (modal & Hopen & Hentry & _).
  split; [exact Hnodup|]. exists modal. split; [exact Hopen|].
  exact (Hentry 1%nat _ eq_refl).
Defined.

(** ** Every entry point *)

Section EntryPoints.

Context {World : Type} `{Host World}.

Lemma move_no_throw (targetFolder : jsstring) (addPrefix : bool)
    (s : State World) (e : Error) :
  fst (moveCurrentFileToFolder targetFolder addPrefix s) <> Thrown e.
Proof. rewrite move_returns. discriminate. Qed.

Lemma duplicate_no_throw (fuel : nat) (targetFolder : jsstring)
    (addPrefix : bool) (s : State World) (e : Error) :
  fst (duplicateFileToFolder fuel targetFolder addPrefix s) <> Thrown e.
Proof.
  destruct (duplicate_never_throws fuel targetFolder addPrefix s)
    as [->|[-> _]]; discriminate.
Qed.

Lemma moveToParentFolder_no_throw (s : State World) (e : Error) :
  fst (moveToParentFolder s) <> Thrown e.
Proof.
  unfold moveToParentFolder, bind, ask.
  destruct (getActiveFile (world s)) as [f|]; [|discriminate].
  cbv zeta. destruct (JS.strict_eq _ []); apply move_no_throw.
Qed.

(** X18.  Without an active file every command the plugin registers ends
    the same way: one notice that there is no active file, no host call,
    no modal. *)
Theorem no_active_file_only_notice
    (fuel : nat) (settings : QuickMoveSettings)
    (callback : CommandCallback) (s : State World) :
  getActiveFile (world s) = None ->
  exists text,
    runCallback fuel settings callback s
      = ((Returned tt, logged s [Notice text]), None) /\
    (text = str "No active file to move" \/
     text = str "No active file to duplicate").
Proof.
  intros Hnone.
  destruct callback as [m| | | | |]; cbn [runCallback].
  - unfold folderCallback. destruct (copyInsteadOfMove m).
    + exists (str "No active file to duplicate"). split; [|now right].
      unfold duplicateFileToFolder, bind, ask. now rewrite Hnone.
    + exists (str "No active file to move"). split; [|now left].
      unfold moveCurrentFileToFolder, bind, ask. now rewrite Hnone.
  - exists (str "No active file to move"). split; [|now left].
    unfold showMoveMenu. now rewrite Hnone.
  - exists (str "No active file to move"). split; [|now left].
    unfold moveCurrentFileToFolder, bind, ask. now rewrite Hnone.
  - exists (str "No active file to duplicate"). split; [|now right].
    unfold showDuplicateMenu. now rewrite Hnone.
  - exists (str "No active file to move"). split; [|now left].
    unfold moveToParentFolder, bind, ask. now rewrite Hnone.
  - exists (str "No active file to move"). split; [|now left].
    unfold moveToNewFolder. now rewrite Hnone.
Qed.

(** X19.  No entry point lets an exception out: not a registered command,
    and not a click or a submit in a modal that a command opened. *)
Theorem entry_points_never_throw
    (fuel : nat) (settings : QuickMoveSettings)
    (callback : CommandCallback) (s : State World) :
  (forall e, fst (fst (runCallback fuel settings callback s)) <> Thrown e) /\
  (forall modal,
     snd (runCallback fuel settings callback s) = Some modal ->
     forall (index : nat) (value : jsstring) (s' : State World) (e : Error),
       fst (clickItem modal index s') <> Thrown e /\
       fst (submitText modal value s') <> Thrown e).
Proof.
  assert (Hselect : forall selected s' e,
             fst (showMoveMenu_onSelect fuel settings selected s')
             <> Thrown e).
  { intros selected s' e. unfold showMoveMenu_onSelect. cbv zeta.
    destruct (flagOrFalse copyInsteadOfMove _);
      [apply duplicate_no_throw | apply move_no_throw]. }
  assert (Hsubmit : forall value s' e,
             fst (moveToNewFolder_onSubmit value s') <> Thrown e).
  { intros value s' e. unfold moveToNewFolder_onSubmit.
    destruct (JS.truthy (trim value)); [apply move_no_throw | discriminate]. }
  destruct callback as [m| | | | |]; cbn [runCallback].
  - split; [|discriminate]. intros e. cbn [fst]. unfold folderCallback.
    destruct (copyInsteadOfMove m);
      [apply duplicate_no_throw | apply move_no_throw].
  - unfold showMoveMenu.
    destruct (getActiveFile (world s)); cbv zeta; cbn [fst snd].
    + split; [discriminate|]. intros modal Hmodal index value s' e.
      injection Hmodal as <-. cbn [clickItem submitText].
      split; [|discriminate].
      destruct (nth_error _ index); [apply Hselect | discriminate].
    + split; [discriminate|]. discriminate.
  - split; [|discriminate]. intros e. apply move_no_throw.
  - unfold showDuplicateMenu.
    destruct (getActiveFile (world s)); cbn [fst snd].
    + split; [discriminate|]. intros modal Hmodal index value s' e.
      injection Hmodal as <-. cbn [clickItem submitText].
      split; [|discriminate].
      destruct (nth_error _ index); [|discriminate].
      unfold showDuplicateMenu_onSelect. apply duplicate_no_throw.
    + split; [discriminate|]. discriminate.
  - split; [|discriminate]. intros e. apply moveToParentFolder_no_throw.
  - unfold moveToNewFolder.
    destruct (getActiveFile (world s)); cbn [fst snd].
    + split; [discriminate|]. intros modal Hmodal index value s' e.
      injection Hmodal as <-. cbn [clickItem submitText].
      split; [discriminate | apply Hsubmit].
    + split; [discriminate|]. discriminate.
Qed.

End EntryPoints.

Lemma no_active_file_only_notice_witness :
  let s := MemVault.start MemVault.idle in
  getActiveFile (world s) = None /\
  exists text,
    runCallback 1 DEFAULT_SETTINGS ShowDuplicateMenu s
      = ((Returned tt, logged s [Notice text]), None) /\
    (text = str "No active file to move" \/
     text = str "No active file to duplicate").
Proof.
  intros s.
  assert (Hnone : getActiveFile (world s) = None) by reflexivity.
  exact (conj Hnone
           (no_active_file_only_notice 1 DEFAULT_SETTINGS ShowDuplicateMenu
              s Hnone)).
Defined.

Lemma entry_points_never_throw_witness :
  let s := MemVault.start MemVault.stale in
  exists modal,
    snd (runCallback 1 DEFAULT_SETTINGS ShowMoveMenu s) = Some modal /\
    fst (clickItem modal 1 s) = Returned tt /\
    forall e, fst (clickItem modal 1 s) <> Thrown e.
Proof.
  intros s.
  destruct (entry_points_never_throw 1 DEFAULT_SETTINGS ShowMoveMenu s)
    as [_ Hmodal].
  eexists. split; [reflexivity|]. split; [reflexivity|].
  intros e. exact (proj1 (Hmodal _ eq_refl 1%nat [] s e)).
Defined.
